(** * LidarData: the header and point buffer of a Lidar measurement

    A shallow embedding of [carla/sensor/s11n/LidarData.h]: the detection
    record [LidarDetection] and the accumulator [LidarData], with the
    [std::vector] operations the class uses, followed by the properties of
    the sweep life cycle (construct, [Reset], [WritePointAsync],
    [SaveDetections]). *)

From Stdlib Require Import ZArith Lia Strings.Ascii Strings.String Strings.Byte.
From stdpp Require Import base tactics option list numbers.

Local Open Scope Z_scope.

(** ** Machine data *)

(** [uint32_t]: an integer in [0, 2^32). *)
Definition uint32_max : Z := 2 ^ 32.
Definition is_uint32 (n : Z) : Prop := 0 <= n < uint32_max.
Definition to_uint32 (n : Z) : Z := n mod uint32_max.

(** [float]: the class asserts [sizeof(float) == sizeof(uint32_t)], and the
    code only copies and prints floats, so a float is its object
    representation, four bytes in address order. *)
Record float : Type := Float { byte0 : byte; byte1 : byte; byte2 : byte; byte3 : byte }.

Definition Z_of_byte (b : byte) : Z := Z.of_N (Byte.to_N b).
Definition byte_of_Z (n : Z) : byte :=
  default x00 (Byte.of_N (Z.to_N (n mod 256))).

(** [std::memcpy(&word, &f, sizeof(uint32_t))]: the four bytes of the float
    become the four bytes of the word, here least significant byte first;
    the read below uses the same byte order, whichever the platform has. *)
Definition memcpy_float_to_uint32 (f : float) : Z :=
  Z_of_byte (byte0 f) + 256 * (Z_of_byte (byte1 f)
    + 256 * (Z_of_byte (byte2 f) + 256 * Z_of_byte (byte3 f))).

(** [reinterpret_cast<const float &>(word)]: the bytes of the word read as a
    float. *)
Definition reinterpret_uint32_as_float (w : Z) : float :=
  Float (byte_of_Z w) (byte_of_Z (w / 256))
        (byte_of_Z (w / 256 / 256)) (byte_of_Z (w / 256 / 256 / 256)).

Definition float_zero : float := Float x00 x00 x00 x00.

(** ** [std::vector] with its capacity

    The buffers the class reserves are modelled with their capacity; how
    much a full vector grows on [emplace_back] is left to the library, so it
    is a parameter of the model. *)
Record vector (A : Type) : Type := Vector { elems : list A; capacity : nat }.
Arguments Vector {A} _ _.
Arguments elems {A} _.
Arguments capacity {A} _.

Definition vec_empty {A} : vector A := Vector [] 0.
Definition vec_size {A} (v : vector A) : nat := length (elems v).
Definition vec_clear {A} (v : vector A) : vector A := Vector [] (capacity v).
Definition vec_reserve {A} (n : nat) (v : vector A) : vector A :=
  Vector (elems v) (Nat.max (capacity v) n).

Section Growth.
Variable grow : nat -> nat.

Definition vec_emplace_back {A} (v : vector A) (a : A) : vector A :=
  Vector (elems v ++ [a])
         (if (vec_size v <? capacity v)%nat then capacity v
          else grow (capacity v)).
End Growth.

(** ** Faults

    What the C++ leaves undefined, or aborts on, is a fault of the model. *)
Inductive fault : Type :=
  | AssertionFailed      (* a DEBUG_ASSERT that does not hold, debug build *)
  | OutOfRange           (* operator[] past the end of a vector *)
  | IndeterminateValue.  (* read of a member that was never written *)

Definition result (A : Type) : Type := fault + A.
Definition ok {A} (a : A) : result A := inr a.
Definition raise {A} (e : fault) : result A := inl e.
Definition bind {A B} (m : result A) (k : A -> result B) : result B :=
  match m with
  | inl e => inl e
  | inr a => k a
  end.

Notation "'do' x <- m ; k" := (bind m (fun x => k))
  (at level 10, x name, m at level 100, k at level 200).

(** ** Detections *)

(** [geom::Location] is used here through its three coordinates only. *)
Record Location : Type := MkLocation { x : float; y : float; z : float }.

Record LidarDetection : Type := MkLidarDetection {
  point : Location;
  intensity : float
}.

Definition LidarDetection_default : LidarDetection :=
  MkLidarDetection (MkLocation float_zero float_zero float_zero) float_zero.
Definition LidarDetection_xyzi (px py pz i : float) : LidarDetection :=
  MkLidarDetection (MkLocation px py pz) i.
Definition LidarDetection_of_location (p : Location) (i : float) : LidarDetection :=
  MkLidarDetection p i.

Section Streams.
(** An output stream is the text written to it so far; how [operator<<]
    renders a float belongs to the stream and its flags. *)
Variable format_float : float -> string.
Definition ostream : Type := string.

Definition put_float (out : ostream) (f : float) : ostream :=
  (out ++ format_float f)%string.
Definition put_char (out : ostream) (c : Ascii.ascii) : ostream :=
  (out ++ String c EmptyString)%string.

Definition newline : string := String (Ascii.ascii_of_nat 10) EmptyString.

Definition WritePlyHeaderInfo (out : ostream) : ostream :=
  (out ++ "property float32 x" ++ newline
       ++ "property float32 y" ++ newline
       ++ "property float32 z" ++ newline
       ++ "property float32 I" ++ newline)%string.

Definition WriteDetection (d : LidarDetection) (out : ostream) : ostream :=
  put_float
    (put_char
      (put_float
        (put_char
          (put_float
            (put_char (put_float out (x (point d))) " "%char)
            (y (point d)))
          " "%char)
        (z (point d)))
      " "%char)
    (intensity d).
End Streams.

(** ** The accumulator *)

Record LidarData : Type := MkLidarData {
  _header : list Z;
  _aux_points : list (vector LidarDetection);
  _max_channel_points : option Z;   (* [None] until [Reset] writes it *)
  _points : vector float
}.

Definition SizeLidarDetection : Z := 4.

(** [enum Index]. *)
Definition HorizontalAngle : nat := 0.
Definition ChannelCount : nat := 1.
Definition SIZE : nat := 2.

Definition set_header (h : list Z) (d : LidarData) : LidarData :=
  MkLidarData h (_aux_points d) (_max_channel_points d) (_points d).
Definition set_aux_points (a : list (vector LidarDetection)) (d : LidarData) : LidarData :=
  MkLidarData (_header d) a (_max_channel_points d) (_points d).
Definition set_max_channel_points (m : Z) (d : LidarData) : LidarData :=
  MkLidarData (_header d) (_aux_points d) (Some m) (_points d).
Definition set_points (p : vector float) (d : LidarData) : LidarData :=
  MkLidarData (_header d) (_aux_points d) (_max_channel_points d) p.

(** The header words are read and written by index; in every state the
    class reaches the header has [SIZE + ChannelCount] words (lemma
    [header_shape_run] below), so these indices are in range. *)
Definition header_at (i : nat) (d : LidarData) : Z := default 0 (_header d !! i).

(** [LidarData(uint32_t ChannelCount)]. *)
Definition LidarData_new (channel_count : Z) : LidarData :=
  MkLidarData
    (<[ChannelCount := channel_count]>
       (replicate (SIZE + Z.to_nat channel_count) 0))
    [] None vec_empty.

Definition GetHorizontalAngle (d : LidarData) : float :=
  reinterpret_uint32_as_float (header_at HorizontalAngle d).

Definition SetHorizontalAngle (angle : float) (d : LidarData) : LidarData :=
  set_header (<[HorizontalAngle := memcpy_float_to_uint32 angle]> (_header d)) d.

Definition GetChannelCount (d : LidarData) : Z := header_at ChannelCount d.

(** [std::memset(p + start, 0, sizeof(uint32_t) * count)] on a word array. *)
Definition memset_zero (start count : nat) (h : list Z) : list Z :=
  foldr (fun i acc => <[i := 0]> acc) h (seq start count).

(** [GetChannelCount()] is read twice in the body; the [memset] between the
    two reads starts at word [SIZE] and leaves word 1 as it is. *)
Definition Reset (channel_point_count : Z) (d : LidarData) : LidarData :=
  let n := Z.to_nat (GetChannelCount d) in
  let d := set_header (memset_zero SIZE n (_header d)) d in
  let d := set_max_channel_points channel_point_count d in
  let d := set_aux_points (resize n vec_empty (_aux_points d)) d in
  set_aux_points
    ((fun aux => vec_reserve (Z.to_nat channel_point_count) (vec_clear aux))
       <$> _aux_points d)
    d.

(** The calls a client can make. *)
Inductive call : Type :=
  | CallSetHorizontalAngle (angle : float)
  | CallReset (channel_point_count : Z)
  | CallWritePointAsync (channel : Z) (detection : LidarDetection)
  | CallSaveDetections.

Section Build.
(** Whether DEBUG_ASSERT is compiled in, and the growth of a full vector. *)
Variable debug : bool.
Variable grow : nat -> nat.

Definition WritePointAsync (channel : Z) (detection : LidarDetection)
    (d : LidarData) : result LidarData :=
  if debug && negb (channel <? GetChannelCount d) then raise AssertionFailed
  else
    match _aux_points d !! Z.to_nat channel with
    | None => raise OutOfRange
    | Some aux =>
        ok (set_aux_points
              (<[Z.to_nat channel := vec_emplace_back grow aux detection]>
                 (_aux_points d))
              d)
    end.

(** The four [emplace_back] calls of the inner loop body. *)
Definition emplace_detection (pts : vector float) (pt : LidarDetection) : vector float :=
  let pts := vec_emplace_back grow pts (x (point pt)) in
  let pts := vec_emplace_back grow pts (y (point pt)) in
  let pts := vec_emplace_back grow pts (z (point pt)) in
  vec_emplace_back grow pts (intensity pt).

(** One turn of the loop over the channels. *)
Definition save_channel (idxChannel : nat) (d : LidarData) : result LidarData :=
  let d :=
    set_header
      (<[(SIZE + idxChannel)%nat := to_uint32 (Z.of_nat (length (_aux_points d)))]>
         (_header d))
      d in
  match _aux_points d !! idxChannel with
  | None => raise OutOfRange
  | Some aux => ok (set_points (foldl emplace_detection (_points d) (elems aux)) d)
  end.

Fixpoint save_channels (idxs : list nat) (d : LidarData) : result LidarData :=
  match idxs with
  | [] => ok d
  | idxChannel :: rest => do d' <- save_channel idxChannel d; save_channels rest d'
  end.

(** The loop bound [GetChannelCount()] is read once: no turn of the loop
    writes header word 1 (lemma [save_channels_channel_count]). *)
Definition SaveDetections (d : LidarData) : result LidarData :=
  let d := set_points (vec_clear (_points d)) d in
  match _max_channel_points d with
  | None => raise IndeterminateValue
  | Some m =>
      let d :=
        set_points
          (vec_reserve
             (Z.to_nat (to_uint32 (SizeLidarDetection * GetChannelCount d * m)))
             (_points d))
          d in
      save_channels (seq 0 (Z.to_nat (GetChannelCount d))) d
  end.

(** One call, and a sequence of calls; a fault ends the sequence. *)
Definition step (c : call) (d : LidarData) : result LidarData :=
  match c with
  | CallSetHorizontalAngle angle => ok (SetHorizontalAngle angle d)
  | CallReset n => ok (Reset n d)
  | CallWritePointAsync channel detection => WritePointAsync channel detection d
  | CallSaveDetections => SaveDetections d
  end.

Fixpoint run (cs : list call) (d : LidarData) : result LidarData :=
  match cs with
  | [] => ok d
  | c :: rest => do d' <- step c d; run rest d'
  end.
End Build.

(** ** Vocabulary of the statements *)

(** The four floats [SaveDetections] stores for one detection. *)
Definition detection_floats (pt : LidarDetection) : list float :=
  [x (point pt); y (point pt); z (point pt); intensity pt].

(** A sweep's appends, as (channel, detection) pairs in call order. *)
Definition writes : Type := list (Z * LidarDetection).

Definition write_calls (ws : writes) : list call :=
  (fun w => CallWritePointAsync (fst w) (snd w)) <$> ws.

(** The detections appended to one channel, in append order. *)
Fixpoint detections_of (channel : Z) (ws : writes) : list LidarDetection :=
  match ws with
  | [] => []
  | w :: rest =>
      if fst w =? channel then snd w :: detections_of channel rest
      else detections_of channel rest
  end.

Definition appends_to (channel : Z) (ws : writes) : nat :=
  length (detections_of channel ws).

(** The number of appends to the channels below [i]. *)
Definition appends_below (i : nat) (ws : writes) : nat :=
  sum_list_with (fun k => appends_to (Z.of_nat k) ws) (seq 0 i).

(** The per-channel point-count words of the header. *)
Definition point_counts (d : LidarData) : list Z :=
  take (Z.to_nat (GetChannelCount d)) (drop SIZE (_header d)).

Definition sum_words (ws : list Z) : Z := foldr Z.add 0 ws.

(** The floats of a run of detections, and of the channels [idxs] of a
    staging array, in the order [SaveDetections] emits them. *)
Definition floats_of (pts : list LidarDetection) : list float :=
  flat_map detection_floats pts.

Definition staged_floats (aux : list (vector LidarDetection)) (idxs : list nat) : list float :=
  flat_map (fun i => floats_of (default [] (elems <$> aux !! i))) idxs.

(** The flat buffer of a sweep of [n] channels: channel by channel in
    ascending order, each channel's detections in append order. *)
Definition sweep_floats (n : Z) (ws : writes) : list float :=
  flat_map (fun i => floats_of (detections_of (Z.of_nat i) ws)) (seq 0 (Z.to_nat n)).

Definition valid_writes (n : Z) (ws : writes) : Prop :=
  Forall (fun w => 0 <= fst w < n) ws.

(** The header after the count word of every channel of [idxs] was set
    to [count]. *)
Definition stamp_counts (count : Z) (idxs : list nat) (h : list Z) : list Z :=
  foldl (fun h i => <[(SIZE + i)%nat := count]> h) h idxs.

(** The state after a [Reset]: one staging buffer per channel, and the
    capacity hint recorded. *)
Definition staged (n : Z) (d : LidarData) : Prop :=
  length (_aux_points d) = Z.to_nat n /\ is_Some (_max_channel_points d).

(** The state before the first [Reset]. *)
Definition unstaged (d : LidarData) : Prop :=
  _aux_points d = [] /\ _max_channel_points d = None.

(** The header has its [SIZE + ChannelCount] words and records [n]
    channels. *)
Definition header_shape (n : Z) (d : LidarData) : Prop :=
  _header d !! ChannelCount = Some n /\
  length (_header d) = (SIZE + Z.to_nat n)%nat.

(** What every state of a given accumulator satisfies. *)
Definition invariant (n : Z) (d : LidarData) : Prop :=
  header_shape n d /\ (unstaged d \/ staged n d).

Definition is_reset (c : call) : bool :=
  match c with CallReset _ => true | _ => false end.

(** A float given by its IEEE-754 bit pattern. *)
Definition float_of_bits (bits : Z) : float := reinterpret_uint32_as_float bits.

(** The scenario of the specification: two channels, three detections
    {1,2,3,0.5} and {7,8,9,0.1} on channel 0, {4,5,6,0.9} on channel 1. *)
Definition det_a : LidarDetection :=
  LidarDetection_xyzi (float_of_bits 0x3F800000) (float_of_bits 0x40000000)
                      (float_of_bits 0x40400000) (float_of_bits 0x3F000000).
Definition det_b : LidarDetection :=
  LidarDetection_xyzi (float_of_bits 0x40800000) (float_of_bits 0x40A00000)
                      (float_of_bits 0x40C00000) (float_of_bits 0x3F666666).
Definition det_c : LidarDetection :=
  LidarDetection_xyzi (float_of_bits 0x40E00000) (float_of_bits 0x41000000)
                      (float_of_bits 0x41100000) (float_of_bits 0x3DCCCCCD).

Definition scenario_writes : writes := [(0, det_a); (1, det_b); (0, det_c)].
Definition scenario : list call :=
  CallReset 10 :: write_calls scenario_writes ++ [CallSaveDetections].

(** A growth policy to run the model with: a full vector doubles. *)
Definition double (n : nat) : nat := Nat.max 1 (2 * n).

(** ** Vocabulary of the histories

    What a sequence of calls has left in the accumulator. *)

(** The arguments of a call are [uint32_t] values. *)
Definition call_typed (c : call) : Prop :=
  match c with
  | CallReset channel_point_count => is_uint32 channel_point_count
  | CallWritePointAsync channel _ => is_uint32 channel
  | _ => True
  end.

(** The appends that are still staged after the calls [cs], when [acc]
    were staged before them: those made since the last [Reset]. *)
Fixpoint staged_writes (cs : list call) (acc : writes) : writes :=
  match cs with
  | [] => acc
  | CallReset _ :: rest => staged_writes rest []
  | CallWritePointAsync channel detection :: rest =>
      staged_writes rest (acc ++ [(channel, detection)])
  | _ :: rest => staged_writes rest acc
  end.

(** The appends that the last [SaveDetections] of [cs] found staged, or
    [saved] when [cs] has none; [acc] are the appends staged before [cs]. *)
Fixpoint saved_writes (cs : list call) (acc saved : writes) : writes :=
  match cs with
  | [] => saved
  | CallReset _ :: rest => saved_writes rest [] saved
  | CallWritePointAsync channel detection :: rest =>
      saved_writes rest (acc ++ [(channel, detection)]) saved
  | CallSaveDetections :: rest => saved_writes rest acc acc
  | CallSetHorizontalAngle _ :: rest => saved_writes rest acc saved
  end.

(** The angle of the last [SetHorizontalAngle] of [cs], or [cur]. *)
Fixpoint last_angle (cs : list call) (cur : float) : float :=
  match cs with
  | [] => cur
  | CallSetHorizontalAngle angle :: rest => last_angle rest angle
  | _ :: rest => last_angle rest cur
  end.

(** The staging buffers hold the appends [acc], channel by channel. *)
Definition tracks (n : Z) (acc : writes) (d : LidarData) : Prop :=
  staged n d /\
  forall i, (i < Z.to_nat n)%nat ->
    elems <$> (_aux_points d !! i) = Some (detections_of (Z.of_nat i) acc).

(** ** Bytes and words *)

Lemma Z_of_byte_range (b : byte) : 0 <= Z_of_byte b < 256.
Proof.
  unfold Z_of_byte. pose proof (Byte.to_N_bounded b). lia.
Qed.

Lemma byte_of_Z_low (b : byte) (k : Z) : byte_of_Z (Z_of_byte b + 256 * k) = b.
Proof.
  unfold byte_of_Z.
  replace ((Z_of_byte b + 256 * k) mod 256) with (Z_of_byte b).
  - unfold Z_of_byte. rewrite N2Z.id, Byte.of_to_N. reflexivity.
  - pose proof (Z_of_byte_range b).
    replace (Z_of_byte b + 256 * k) with (Z_of_byte b + k * 256) by lia.
    rewrite Z.mod_add by lia.
    symmetry. apply Z.mod_small. lia.
Qed.

Lemma div_256_high (b : byte) (k : Z) : (Z_of_byte b + 256 * k) / 256 = k.
Proof.
  pose proof (Z_of_byte_range b).
  replace (Z_of_byte b + 256 * k) with (Z_of_byte b + k * 256) by lia.
  rewrite Z.div_add by lia.
  rewrite Z.div_small; lia.
Qed.

Lemma reinterpret_memcpy (f : float) :
  reinterpret_uint32_as_float (memcpy_float_to_uint32 f) = f.
Proof.
  destruct f as [b0 b1 b2 b3].
  unfold reinterpret_uint32_as_float, memcpy_float_to_uint32. simpl.
  rewrite !div_256_high, !byte_of_Z_low.
  f_equal.
  replace (Z_of_byte b3) with (Z_of_byte b3 + 256 * 0) by lia.
  apply byte_of_Z_low.
Qed.

Lemma memcpy_float_is_uint32 (f : float) : is_uint32 (memcpy_float_to_uint32 f).
Proof.
  destruct f as [b0 b1 b2 b3].
  unfold is_uint32, uint32_max, memcpy_float_to_uint32. simpl.
  pose proof (Z_of_byte_range b0); pose proof (Z_of_byte_range b1).
  pose proof (Z_of_byte_range b2); pose proof (Z_of_byte_range b3).
  lia.
Qed.

(** ** The header keeps its shape *)

Lemma memset_zero_S start count h :
  memset_zero start (S count) h = <[start := 0]> (memset_zero (S start) count h).
Proof. reflexivity. Qed.

Lemma length_memset_zero start count h :
  length (memset_zero start count h) = length h.
Proof.
  revert start. induction count as [|count IH]; intros start; [done|].
  rewrite memset_zero_S, length_insert. apply IH.
Qed.

Lemma lookup_memset_zero_below start count h i :
  (i < start)%nat -> memset_zero start count h !! i = h !! i.
Proof.
  revert start. induction count as [|count IH]; intros start Hi; [done|].
  rewrite memset_zero_S, list_lookup_insert_ne by lia. apply IH. lia.
Qed.

Lemma lookup_memset_zero_within start count h i :
  (start <= i < start + count)%nat -> (i < length h)%nat ->
  memset_zero start count h !! i = Some 0.
Proof.
  revert start. induction count as [|count IH]; intros start Hi Hlen; [lia|].
  rewrite memset_zero_S. destruct (decide (i = start)) as [->|Hne].
  - apply list_lookup_insert_eq. by rewrite length_memset_zero.
  - rewrite list_lookup_insert_ne by done. apply IH; lia.
Qed.

Lemma header_shape_channel_count n d : header_shape n d -> GetChannelCount d = n.
Proof. intros [H _]. unfold GetChannelCount, header_at. by rewrite H. Qed.

Lemma header_shape_new n : header_shape n (LidarData_new n).
Proof.
  split; unfold LidarData_new; cbn [_header].
  - apply list_lookup_insert_eq. rewrite length_replicate. unfold SIZE, ChannelCount. lia.
  - by rewrite length_insert, length_replicate.
Qed.

Lemma header_shape_SetHorizontalAngle n angle d :
  header_shape n d -> header_shape n (SetHorizontalAngle angle d).
Proof.
  intros [H1 H2]. split; simpl.
  - by rewrite list_lookup_insert_ne.
  - by rewrite length_insert.
Qed.

Lemma header_Reset h d :
  _header (Reset h d) = memset_zero SIZE (Z.to_nat (GetChannelCount d)) (_header d).
Proof. reflexivity. Qed.

Lemma header_shape_Reset n h d : header_shape n d -> header_shape n (Reset h d).
Proof.
  intros [H1 H2]. split; simpl.
  - rewrite lookup_memset_zero_below; [done | unfold ChannelCount, SIZE; lia].
  - by rewrite length_memset_zero.
Qed.

Lemma stamp_counts_cons count i idxs h :
  stamp_counts count (i :: idxs) h
  = stamp_counts count idxs (<[(SIZE + i)%nat := count]> h).
Proof. reflexivity. Qed.

Lemma lookup_stamp_counts_other count idxs h j :
  (forall i, i ∈ idxs -> j <> (SIZE + i)%nat) ->
  stamp_counts count idxs h !! j = h !! j.
Proof.
  revert h. induction idxs as [|i idxs IH]; intros h Hj; [done|].
  rewrite stamp_counts_cons, IH.
  - apply list_lookup_insert_ne. intros E. apply (Hj i); [left | done].
  - intros i' Hi'. apply Hj. by right.
Qed.

Lemma length_stamp_counts count idxs h :
  length (stamp_counts count idxs h) = length h.
Proof.
  revert h. induction idxs as [|i idxs IH]; intros h; [done|].
  by rewrite stamp_counts_cons, IH, length_insert.
Qed.

Lemma lookup_stamp_counts count idxs h i :
  i ∈ idxs -> (SIZE + i < length h)%nat ->
  stamp_counts count idxs h !! (SIZE + i)%nat = Some count.
Proof.
  revert h. induction idxs as [|i' idxs IH]; intros h Hin Hlen.
  - by apply elem_of_nil in Hin.
  - rewrite stamp_counts_cons.
    destruct (decide (i ∈ idxs)) as [Hi|Hi].
    + apply IH; [done | by rewrite length_insert].
    + apply elem_of_cons in Hin as [->|Hin]; [|done].
      rewrite lookup_stamp_counts_other.
      * by apply list_lookup_insert_eq.
      * intros k Hk E. assert (k = i') by lia. congruence.
Qed.

Lemma header_shape_stamp_counts n count idxs d :
  header_shape n d -> header_shape n (set_header (stamp_counts count idxs (_header d)) d).
Proof.
  intros [H1 H2]. split; simpl.
  - rewrite lookup_stamp_counts_other; [done|].
    intros i _. unfold ChannelCount, SIZE. lia.
  - by rewrite length_stamp_counts.
Qed.

(** ** The staging buffers and the calls *)

Lemma staged_Reset n h d : header_shape n d -> staged n (Reset h d).
Proof.
  intros Hd. split; simpl; [|by eexists].
  rewrite length_fmap, length_resize. by rewrite (header_shape_channel_count n d).
Qed.

Lemma Reset_buffers_empty h d aux :
  aux ∈ _aux_points (Reset h d) -> elems aux = [].
Proof.
  simpl. intros Hin. apply list_elem_of_fmap in Hin as (aux0 & -> & _). reflexivity.
Qed.

Lemma Reset_buffers_capacity h d aux :
  aux ∈ _aux_points (Reset h d) -> (Z.to_nat h <= capacity aux)%nat.
Proof.
  simpl. intros Hin. apply list_elem_of_fmap in Hin as (aux0 & -> & _). simpl. lia.
Qed.

Lemma GetChannelCount_set_points p d :
  GetChannelCount (set_points p d) = GetChannelCount d.
Proof. reflexivity. Qed.

Section BuildFacts.
Variable debug : bool.
Variable grow : nat -> nat.

Lemma elems_emplace_detection pts pt :
  elems (emplace_detection grow pts pt) = elems pts ++ detection_floats pt.
Proof.
  unfold emplace_detection, detection_floats. simpl. by rewrite <- !app_assoc.
Qed.

Lemma elems_foldl_emplace l pts :
  elems (foldl (emplace_detection grow) pts l) = elems pts ++ floats_of l.
Proof.
  revert pts. induction l as [|pt l IH]; intros pts; simpl.
  - by rewrite app_nil_r.
  - rewrite IH, elems_emplace_detection. by rewrite <- app_assoc.
Qed.

(** The loop over the channels, when every index is in range: the
    count words are stamped and the staged floats are appended. *)
Lemma save_channels_ok idxs d :
  Forall (fun i => (i < length (_aux_points d))%nat) idxs ->
  exists pts,
    save_channels grow idxs d
    = ok (MkLidarData
            (stamp_counts (to_uint32 (Z.of_nat (length (_aux_points d)))) idxs (_header d))
            (_aux_points d) (_max_channel_points d) pts)
    /\ elems pts = elems (_points d) ++ staged_floats (_aux_points d) idxs.
Proof.
  revert d. induction idxs as [|i idxs IH]; intros d Hall.
  - exists (_points d). destruct d. split; [done|]. simpl. by rewrite app_nil_r.
  - apply Forall_cons_1 in Hall as [Hi Hall].
    destruct (lookup_lt_is_Some_2 _ _ Hi) as [aux Haux].
    cbn [save_channels]. unfold save_channel. cbn [set_header _aux_points].
    rewrite Haux. cbn [bind ok].
    match goal with |- context [save_channels grow idxs ?d1] =>
      destruct (IH d1) as (pts & Hrun & Hpts); [exact Hall|] end.
    exists pts. split.
    + rewrite Hrun. reflexivity.
    + rewrite Hpts. cbn [set_points set_header _points _aux_points].
      rewrite elems_foldl_emplace. unfold staged_floats. cbn [flat_map].
      rewrite Haux. cbn [fmap option_fmap option_map default].
      by rewrite <- app_assoc.
Qed.

(** The loop faults as soon as a channel has no staging buffer. *)
Lemma save_channels_out_of_range idxs d :
  Exists (fun i => (length (_aux_points d) <= i)%nat) idxs ->
  save_channels grow idxs d = raise OutOfRange.
Proof.
  revert d. induction idxs as [|i idxs IH]; intros d Hex.
  - by apply Exists_nil in Hex.
  - cbn [save_channels]. unfold save_channel. cbn [set_header _aux_points].
    destruct (_aux_points d !! i) as [aux|] eqn:Haux; [|done].
    inversion Hex as [? ? Hi|? ? Hex']; subst.
    + apply lookup_lt_Some in Haux. lia.
    + cbn [bind ok]. by apply IH.
Qed.

Lemma save_channels_channel_count idxs d d' :
  save_channels grow idxs d = ok d' ->
  GetChannelCount d' = GetChannelCount d.
Proof.
  revert d. induction idxs as [|i idxs IH]; intros d Hrun.
  - by injection Hrun as ->.
  - cbn [save_channels] in Hrun. unfold save_channel in Hrun.
    cbn [set_header _aux_points] in Hrun.
    destruct (_aux_points d !! i) as [aux|]; [|done].
    apply IH in Hrun. rewrite Hrun. unfold GetChannelCount, header_at. simpl.
    by rewrite list_lookup_insert_ne.
Qed.

Lemma SaveDetections_ok n d :
  header_shape n d -> staged n d ->
  exists pts,
    SaveDetections grow d
    = ok (MkLidarData
            (stamp_counts (to_uint32 (Z.of_nat (length (_aux_points d))))
               (seq 0 (Z.to_nat n)) (_header d))
            (_aux_points d) (_max_channel_points d) pts)
    /\ elems pts = staged_floats (_aux_points d) (seq 0 (Z.to_nat n)).
Proof.
  intros Hh [Hlen [m Hm]]. unfold SaveDetections.
  change (_max_channel_points (set_points (vec_clear (_points d)) d))
    with (_max_channel_points d).
  rewrite Hm, !GetChannelCount_set_points, (header_shape_channel_count n d Hh).
  match goal with |- context [save_channels grow ?idxs ?d1] =>
    destruct (save_channels_ok idxs d1) as (pts & Hrun & Hpts) end.
  - apply Forall_seq. intros j Hj. cbn [set_points _aux_points]. lia.
  - exists pts. split; [|exact Hpts]. rewrite Hrun.
    cbn [set_points _max_channel_points _header _aux_points].
    by rewrite ?Hm.
Qed.

Lemma SaveDetections_unstaged d :
  unstaged d -> SaveDetections grow d = raise IndeterminateValue.
Proof. intros [_ Hm]. unfold SaveDetections. simpl. by rewrite Hm. Qed.

Lemma WritePointAsync_ok n channel detection d :
  header_shape n d -> staged n d -> 0 <= channel < n ->
  exists aux,
    _aux_points d !! Z.to_nat channel = Some aux /\
    WritePointAsync debug grow channel detection d
    = ok (set_aux_points
            (<[Z.to_nat channel := vec_emplace_back grow aux detection]> (_aux_points d))
            d).
Proof.
  intros Hh [Hlen _] Hc.
  destruct (lookup_lt_is_Some_2 (_aux_points d) (Z.to_nat channel)) as [aux Haux]; [lia|].
  exists aux. split; [done|]. unfold WritePointAsync.
  rewrite (header_shape_channel_count n d Hh), Haux.
  destruct (Z.ltb_spec channel n); [|lia]. by rewrite andb_false_r.
Qed.

Lemma WritePointAsync_unstaged channel detection d :
  unstaged d ->
  exists e, WritePointAsync debug grow channel detection d = raise e.
Proof.
  intros [Haux _]. unfold WritePointAsync. rewrite Haux.
  destruct (debug && negb (channel <? GetChannelCount d)); by eexists.
Qed.

Lemma WritePointAsync_unstaged_in_range channel detection d :
  unstaged d -> channel < GetChannelCount d ->
  WritePointAsync debug grow channel detection d = raise OutOfRange.
Proof.
  intros [Haux _] Hc. unfold WritePointAsync. rewrite Haux.
  destruct (Z.ltb_spec channel (GetChannelCount d)); [|lia].
  by rewrite andb_false_r.
Qed.
End BuildFacts.

(** ** Sequences of calls *)

Section RunFacts.
Variable debug : bool.
Variable grow : nat -> nat.

Lemma run_app cs1 cs2 d :
  run debug grow (cs1 ++ cs2) d
  = bind (run debug grow cs1 d) (run debug grow cs2).
Proof.
  revert d. induction cs1 as [|c cs1 IH]; intros d; [done|].
  cbn [app run]. destruct (step debug grow c d) as [e|d1]; [done|]. apply IH.
Qed.

Lemma invariant_new n : invariant n (LidarData_new n).
Proof. split; [apply header_shape_new | by left]. Qed.

Lemma step_header_shape n c d d' :
  invariant n d -> step debug grow c d = ok d' -> header_shape n d'.
Proof.
  intros [Hh Hs] Hstep. destruct c as [angle|h|channel detection|]; cbn [step] in Hstep.
  - injection Hstep as <-. by apply header_shape_SetHorizontalAngle.
  - injection Hstep as <-. by apply header_shape_Reset.
  - destruct Hs as [Hu|Hs].
    + destruct (WritePointAsync_unstaged debug grow channel detection d Hu) as [e He].
      rewrite He in Hstep. discriminate.
    + unfold WritePointAsync in Hstep.
      destruct (debug && negb (channel <? GetChannelCount d)); [discriminate|].
      destruct (_aux_points d !! Z.to_nat channel); [|discriminate].
      injection Hstep as <-. exact Hh.
  - destruct Hs as [Hu|Hs].
    + rewrite (SaveDetections_unstaged grow d Hu) in Hstep. discriminate.
    + destruct (SaveDetections_ok grow n d Hh Hs) as (pts & Hrun & _).
      rewrite Hrun in Hstep. injection Hstep as <-.
      apply (header_shape_stamp_counts n _ _ d Hh).
Qed.

(** Before the first [Reset] only [SetHorizontalAngle] and [Reset] return. *)
Lemma step_unstaged c d d' :
  unstaged d -> step debug grow c d = ok d' ->
  match c with
  | CallSetHorizontalAngle _ => unstaged d'
  | CallReset _ => True
  | _ => False
  end.
Proof.
  intros Hu Hstep. destruct c as [angle|h|channel detection|]; cbn [step] in Hstep.
  - injection Hstep as <-. exact Hu.
  - exact I.
  - destruct (WritePointAsync_unstaged debug grow channel detection d Hu) as [e He].
    rewrite He in Hstep. discriminate.
  - rewrite (SaveDetections_unstaged grow d Hu) in Hstep. discriminate.
Qed.

Lemma step_staged n c d d' :
  header_shape n d -> staged n d -> step debug grow c d = ok d' -> staged n d'.
Proof.
  intros Hh Hs Hstep. destruct c as [angle|h|channel detection|]; cbn [step] in Hstep.
  - injection Hstep as <-. exact Hs.
  - injection Hstep as <-. by apply staged_Reset.
  - unfold WritePointAsync in Hstep.
    destruct (debug && negb (channel <? GetChannelCount d)); [discriminate|].
    destruct (_aux_points d !! Z.to_nat channel); [|discriminate].
    injection Hstep as <-. destruct Hs as [Hlen Hm]. split; [|exact Hm].
    cbn [set_aux_points _aux_points]. by rewrite length_insert.
  - destruct (SaveDetections_ok grow n d Hh Hs) as (pts & Hrun & _).
    rewrite Hrun in Hstep. injection Hstep as <-. exact Hs.
Qed.

Lemma step_invariant n c d d' :
  invariant n d -> step debug grow c d = ok d' -> invariant n d'.
Proof.
  intros Hinv Hstep. split; [by eapply step_header_shape|].
  destruct Hinv as [Hh [Hu|Hs]].
  - pose proof (step_unstaged c d d' Hu Hstep) as Hc.
    destruct c as [angle|h| |]; [by left | | done | done].
    cbn [step] in Hstep. injection Hstep as <-. right. by apply staged_Reset.
  - right. by eapply step_staged.
Qed.

Lemma run_invariant n cs d d' :
  invariant n d -> run debug grow cs d = ok d' -> invariant n d'.
Proof.
  revert d. induction cs as [|c cs IH]; intros d Hinv Hrun; cbn [run] in Hrun.
  - by injection Hrun as <-.
  - destruct (step debug grow c d) as [e|d1] eqn:Hstep; [discriminate|].
    eapply IH; [|exact Hrun]. by eapply step_invariant.
Qed.

Lemma header_shape_run n cs d :
  run debug grow cs (LidarData_new n) = ok d -> header_shape n d.
Proof. intros Hrun. eapply run_invariant; [apply invariant_new | exact Hrun]. Qed.

Lemma run_staged n cs d d' :
  header_shape n d -> staged n d -> run debug grow cs d = ok d' -> staged n d'.
Proof.
  revert d. induction cs as [|c cs IH]; intros d Hh Hs Hrun; cbn [run] in Hrun.
  - by injection Hrun as <-.
  - destruct (step debug grow c d) as [e|d1] eqn:Hstep; [discriminate|].
    eapply IH; [| |exact Hrun].
    + eapply step_header_shape; [|exact Hstep]. split; [done | by right].
    + by eapply step_staged.
Qed.

Lemma run_without_reset cs d d' :
  unstaged d -> existsb is_reset cs = false ->
  run debug grow cs d = ok d' -> unstaged d'.
Proof.
  revert d. induction cs as [|c cs IH]; intros d Hu Hnr Hrun; cbn [run] in Hrun.
  - by injection Hrun as <-.
  - destruct (step debug grow c d) as [e|d1] eqn:Hstep; [discriminate|].
    cbn [existsb] in Hnr. apply orb_false_iff in Hnr as [Hc Hnr].
    pose proof (step_unstaged c d d1 Hu Hstep) as Hd1.
    destruct c; try done. by eapply IH.
Qed.

Lemma run_with_reset n cs d d' :
  invariant n d -> existsb is_reset cs = true ->
  run debug grow cs d = ok d' -> staged n d'.
Proof.
  revert d. induction cs as [|c cs IH]; intros d Hinv Hr Hrun; [done|].
  cbn [run] in Hrun.
  destruct (step debug grow c d) as [e|d1] eqn:Hstep; [discriminate|].
  cbn [bind] in Hrun.
  pose proof (step_invariant n c d d1 Hinv Hstep) as Hinv1.
  destruct (is_reset c) eqn:Hc.
  - destruct c; try done. cbn [step] in Hstep. injection Hstep as <-.
    eapply run_staged; [apply Hinv1 | | exact Hrun].
    apply staged_Reset, Hinv.
  - cbn [existsb] in Hr. rewrite Hc in Hr. by eapply IH.
Qed.
End RunFacts.

(** ** Counting and laying out the detections of a sweep *)

Lemma length_floats_of pts : length (floats_of pts) = (4 * length pts)%nat.
Proof.
  induction pts as [|pt pts IH]; [done|].
  unfold floats_of in *. cbn [flat_map]. rewrite length_app, IH. simpl. lia.
Qed.

Lemma lookup_floats_of pts j pt r :
  pts !! j = Some pt -> (r < 4)%nat ->
  floats_of pts !! (4 * j + r)%nat = detection_floats pt !! r.
Proof.
  revert j. induction pts as [|pt0 pts IH]; intros j Hj Hr; [done|].
  unfold floats_of in *. cbn [flat_map]. destruct j as [|j].
  - injection Hj as ->. rewrite lookup_app_l; [reflexivity | simpl; lia].
  - rewrite lookup_app_r; [|simpl; lia].
    replace (4 * S j + r - length (detection_floats pt0))%nat with (4 * j + r)%nat
      by (simpl; lia).
    by apply IH.
Qed.

Lemma length_flat_map_sum {A B} (f : A -> list B) (l : list A) :
  length (flat_map f l) = sum_list_with (fun a => length (f a)) l.
Proof.
  induction l as [|a l IH]; [done|].
  cbn [flat_map sum_list_with]. by rewrite length_app, IH.
Qed.

Lemma flat_map_agree {A B} (f g : A -> list B) (l : list A) :
  (forall a, a ∈ l -> f a = g a) -> flat_map f l = flat_map g l.
Proof.
  induction l as [|a l IH]; intros Hfg; [done|].
  cbn [flat_map]. rewrite (Hfg a), IH; [done | | by left].
  intros a' Ha'. apply Hfg. by right.
Qed.

Lemma sum_list_with_indicator (c start len : nat) :
  sum_list_with (fun i => if decide (i = c) then 1%nat else 0%nat) (seq start len)
  = if decide (start <= c < start + len)%nat then 1%nat else 0%nat.
Proof.
  revert start. induction len as [|len IH]; intros start.
  - cbn [seq sum_list_with]. case_decide; [lia | done].
  - cbn [seq sum_list_with]. rewrite IH. repeat case_decide; lia.
Qed.

Lemma sum_list_with_add {A} (f g : A -> nat) (l : list A) :
  sum_list_with (fun a => (f a + g a)%nat) l
  = (sum_list_with f l + sum_list_with g l)%nat.
Proof. induction l as [|a l IH]; [done|]. cbn [sum_list_with]. lia. Qed.

Lemma sum_list_with_agree {A} (f g : A -> nat) (l : list A) :
  (forall a, f a = g a) -> sum_list_with f l = sum_list_with g l.
Proof. intros Hfg. induction l as [|a l IH]; [done|]. cbn [sum_list_with]. by rewrite Hfg, IH. Qed.

Lemma appends_to_cons channel w ws :
  appends_to channel (w :: ws)
  = ((if decide (fst w = channel) then 1 else 0) + appends_to channel ws)%nat.
Proof.
  unfold appends_to. cbn [detections_of].
  destruct (Z.eqb_spec (fst w) channel); case_decide; done.
Qed.

(** Every append of a valid sweep is counted on exactly one channel. *)
Lemma appends_below_all n ws :
  valid_writes n ws -> appends_below (Z.to_nat n) ws = length ws.
Proof.
  unfold appends_below. induction 1 as [|w ws Hw Hws IH]; cbn [length].
  - induction (seq 0 (Z.to_nat n)) as [|i l IHl]; [done|]. exact IHl.
  - rewrite <- IH.
    rewrite (sum_list_with_agree _
      (fun k => ((if decide (k = Z.to_nat (fst w)) then 1 else 0)
                 + appends_to (Z.of_nat k) ws)%nat)).
    + rewrite sum_list_with_add, sum_list_with_indicator.
      case_decide; [done | lia].
    + intros k. rewrite appends_to_cons. repeat case_decide; lia.
Qed.

Lemma length_sweep_floats_prefix i ws :
  length (flat_map (fun k => floats_of (detections_of (Z.of_nat k) ws)) (seq 0 i))
  = (4 * appends_below i ws)%nat.
Proof.
  rewrite length_flat_map_sum. unfold appends_below, appends_to.
  induction (seq 0 i) as [|k l IH]; [done|].
  cbn [sum_list_with]. rewrite IH, length_floats_of. lia.
Qed.

Lemma length_sweep_floats n ws :
  valid_writes n ws -> length (sweep_floats n ws) = (4 * length ws)%nat.
Proof.
  intros Hws. unfold sweep_floats.
  by rewrite length_sweep_floats_prefix, appends_below_all.
Qed.

(** The [j]-th detection of channel [i] lies behind the records of the
    lower channels and the [j] earlier records of its own channel. *)
Lemma lookup_sweep_floats n ws i j pt r :
  (i < Z.to_nat n)%nat ->
  detections_of (Z.of_nat i) ws !! j = Some pt -> (r < 4)%nat ->
  sweep_floats n ws !! (4 * appends_below i ws + 4 * j + r)%nat
  = detection_floats pt !! r.
Proof.
  intros Hi Hj Hr. unfold sweep_floats.
  replace (Z.to_nat n) with (i + S (Z.to_nat n - S i))%nat by lia.
  rewrite seq_app, flat_map_app. cbn [seq flat_map Nat.add].
  rewrite lookup_app_r; rewrite length_sweep_floats_prefix; [|lia].
  replace (4 * appends_below i ws + 4 * j + r - 4 * appends_below i ws)%nat
    with (4 * j + r)%nat by lia.
  rewrite lookup_app_l.
  - by apply lookup_floats_of.
  - rewrite length_floats_of. apply lookup_lt_Some in Hj. lia.
Qed.

(** ** A sweep: [Reset], appends, [SaveDetections] *)

Section SweepFacts.
Variable debug : bool.
Variable grow : nat -> nat.

(** Valid appends on a staged accumulator all return; each one extends
    the staging buffer of its channel and nothing else. *)
Lemma run_writes n ws d :
  header_shape n d -> staged n d -> valid_writes n ws ->
  exists d',
    run debug grow (write_calls ws) d = ok d' /\
    _header d' = _header d /\
    _max_channel_points d' = _max_channel_points d /\
    _points d' = _points d /\
    forall i,
      elems <$> (_aux_points d' !! i)
      = (fun aux => elems aux ++ detections_of (Z.of_nat i) ws)
          <$> (_aux_points d !! i).
Proof.
  intros Hh Hs Hws. revert d Hh Hs.
  induction Hws as [|w ws Hw Hws IH]; intros d Hh Hs.
  - exists d. repeat split; try done.
    intros i. destruct (_aux_points d !! i) as [aux|]; [|done].
    simpl. by rewrite app_nil_r.
  - destruct (WritePointAsync_ok debug grow n (fst w) (snd w) d Hh Hs Hw)
      as (aux0 & Haux0 & Hstep).
    set (d1 := set_aux_points
                 (<[Z.to_nat (fst w) := vec_emplace_back grow aux0 (snd w)]>
                    (_aux_points d)) d) in *.
    destruct (IH d1) as (d' & Hrun & Hhd & Hm & Hp & Haux).
    { exact Hh. }
    { destruct Hs as [Hlen Hmax]. split; [|exact Hmax].
      subst d1. cbn [set_aux_points _aux_points]. by rewrite length_insert. }
    exists d'. split.
    { unfold write_calls. cbn [fmap list_fmap run step fst snd].
      rewrite Hstep. exact Hrun. }
    repeat split; [by rewrite Hhd | by rewrite Hm | by rewrite Hp |].
    intros i. rewrite Haux. subst d1. cbn [set_aux_points _aux_points detections_of].
    destruct (decide (i = Z.to_nat (fst w))) as [->|Hne].
    + rewrite list_lookup_insert_eq, Haux0 by (by eapply lookup_lt_Some).
      rewrite Z2Nat.id, Z.eqb_refl by lia. simpl. by rewrite <- app_assoc.
    + rewrite list_lookup_insert_ne by done.
      destruct (Z.eqb_spec (fst w) (Z.of_nat i)); [lia | done].
Qed.

(** A whole sweep from any state of the accumulator. *)
Lemma sweep_ok n h ws d :
  invariant n d -> valid_writes n ws ->
  exists d',
    run debug grow (CallReset h :: write_calls ws ++ [CallSaveDetections]) d = ok d' /\
    elems (_points d') = sweep_floats n ws /\
    _header d'
    = stamp_counts (to_uint32 (Z.of_nat (Z.to_nat n))) (seq 0 (Z.to_nat n))
        (_header (Reset h d)).
Proof.
  intros [Hh _] Hws.
  pose proof (header_shape_Reset n h d Hh) as Hh0.
  pose proof (staged_Reset n h d Hh) as Hs0.
  destruct (run_writes n ws (Reset h d) Hh0 Hs0 Hws)
    as (d1 & Hrun1 & Hhd & Hm & Hp & Haux).
  assert (Hlen1 : length (_aux_points d1) = Z.to_nat n).
  { apply Nat.le_antisymm.
    - apply Nat.nlt_ge. intros Hlt.
      pose proof (Haux (Z.to_nat n)) as E.
      destruct (lookup_lt_is_Some_2 (_aux_points d1) (Z.to_nat n) Hlt) as [v Hv].
      rewrite Hv, lookup_ge_None_2 in E; [done | rewrite (proj1 Hs0); lia].
    - apply Nat.nlt_ge. intros Hlt.
      pose proof (Haux (length (_aux_points d1))) as E.
      rewrite (lookup_ge_None_2 (_aux_points d1)) in E by lia.
      destruct (lookup_lt_is_Some_2 (_aux_points (Reset h d)) (length (_aux_points d1)))
        as [v Hv]; [rewrite (proj1 Hs0); lia|].
      by rewrite Hv in E. }
  assert (Hh1 : header_shape n d1) by (unfold header_shape; by rewrite Hhd).
  assert (Hs1 : staged n d1).
  { split; [done|]. rewrite Hm. apply Hs0. }
  destruct (SaveDetections_ok grow n d1 Hh1 Hs1) as (pts & Hsave & Hpts).
  eexists. split; [|split].
  - cbn [run step bind ok]. rewrite run_app, Hrun1. cbn [bind run step ok].
    rewrite Hsave. reflexivity.
  - cbn [_points]. rewrite Hpts. unfold staged_floats, sweep_floats.
    apply flat_map_agree. intros i Hi. apply elem_of_seq in Hi.
    rewrite Haux.
    destruct (lookup_lt_is_Some_2 (_aux_points (Reset h d)) i) as [v Hv];
      [rewrite (proj1 Hs0); lia|].
    rewrite Hv. cbn [fmap option_fmap option_map default].
    rewrite (Reset_buffers_empty h d v); [done|]. by eapply list_elem_of_lookup_2.
  - cbn [_header]. by rewrite Hlen1, Hhd.
Qed.
End SweepFacts.

Lemma string_append_assoc (s1 s2 s3 : string) :
  ((s1 ++ s2) ++ s3 = s1 ++ (s2 ++ s3))%string.
Proof. induction s1 as [|c s1 IH]; [done|]. simpl. by rewrite IH. Qed.

Lemma stamp_counts_idempotent count idxs h :
  stamp_counts count idxs (stamp_counts count idxs h) = stamp_counts count idxs h.
Proof.
  apply list_eq. intros j.
  destruct (decide (SIZE <= j /\ (j - SIZE)%nat ∈ idxs)%nat) as [[Hj Hin]|Hout].
  - replace j with (SIZE + (j - SIZE))%nat by lia.
    destruct (decide (SIZE + (j - SIZE) < length h)%nat) as [Hlt|Hge].
    + rewrite !lookup_stamp_counts; rewrite ?length_stamp_counts; done.
    + rewrite !lookup_ge_None_2; rewrite ?length_stamp_counts; [done|lia..].
  - apply lookup_stamp_counts_other. intros i Hi ->. apply Hout.
    split; [lia|]. by replace (SIZE + i - SIZE)%nat with i by lia.
Qed.

(** ** The properties of the accumulator *)

(** C6: a new accumulator of [n] channels has a header of exactly [2 + n]
    words; word 0 (the angle) is zero, word 1 is [n], the [n] point-count
    words are zero, and [GetChannelCount] returns [n]. *)
Theorem new_accumulator_header (n : Z) :
  is_uint32 n ->
  Z.of_nat (length (_header (LidarData_new n))) = 2 + n /\
  _header (LidarData_new n) !! HorizontalAngle = Some 0 /\
  _header (LidarData_new n) !! ChannelCount = Some n /\
  (forall i, (i < Z.to_nat n)%nat ->
     _header (LidarData_new n) !! (SIZE + i)%nat = Some 0) /\
  point_counts (LidarData_new n) = replicate (Z.to_nat n) 0 /\
  GetChannelCount (LidarData_new n) = n.
Proof.
  intros [Hn _]. destruct (header_shape_new n) as [Hcc Hlen].
  assert (Hword : forall i, (i < Z.to_nat n)%nat ->
            _header (LidarData_new n) !! (SIZE + i)%nat = Some 0).
  { intros i Hi. unfold LidarData_new. cbn [_header].
    rewrite list_lookup_insert_ne by (unfold ChannelCount, SIZE; lia).
    apply lookup_replicate_2. lia. }
  split; [|split; [|split; [|split; [|split]]]].
  - rewrite Hlen. unfold SIZE. lia.
  - reflexivity.
  - exact Hcc.
  - exact Hword.
  - unfold point_counts. rewrite (header_shape_channel_count n _ (header_shape_new n)).
    apply list_eq. intros i.
    destruct (decide (i < Z.to_nat n)%nat) as [Hi|Hi].
    + rewrite lookup_take_lt, lookup_drop, Hword by done.
      symmetry. by apply lookup_replicate_2.
    + rewrite lookup_take_ge by lia. symmetry. apply lookup_replicate_None. lia.
  - by apply header_shape_channel_count, header_shape_new.
Qed.

Lemma new_accumulator_header_witness :
  is_uint32 3 /\ GetChannelCount (LidarData_new 3) = 3.
Proof.
  assert (H : is_uint32 3) by (unfold is_uint32, uint32_max; lia).
  split; [exact H|]. apply (new_accumulator_header 3 H).
Defined.

(** C4: on any accumulator, [SetHorizontalAngle f] followed by
    [GetHorizontalAngle] returns a float with the four bytes of [f], for
    every bit pattern [f]; header word 0 holds these bytes as they are. *)
Theorem horizontal_angle_round_trip (debug : bool) (grow : nat -> nat)
    (n : Z) (cs : list call) (d : LidarData) (f : float) :
  run debug grow cs (LidarData_new n) = ok d ->
  GetHorizontalAngle (SetHorizontalAngle f d) = f /\
  _header (SetHorizontalAngle f d) !! HorizontalAngle = Some (memcpy_float_to_uint32 f).
Proof.
  intros Hrun. apply header_shape_run in Hrun as [_ Hlen].
  assert (Hw : _header (SetHorizontalAngle f d) !! HorizontalAngle
               = Some (memcpy_float_to_uint32 f)).
  { cbn [SetHorizontalAngle set_header _header].
    apply list_lookup_insert_eq. rewrite Hlen. unfold HorizontalAngle, SIZE. lia. }
  split; [|exact Hw].
  unfold GetHorizontalAngle, header_at. rewrite Hw. apply reinterpret_memcpy.
Qed.

Lemma horizontal_angle_round_trip_witness :
  GetHorizontalAngle
    (SetHorizontalAngle (float_of_bits 0x7FC00000) (Reset 10 (LidarData_new 2)))
  = float_of_bits 0x7FC00000.
Proof.
  apply (horizontal_angle_round_trip true double 2 [CallReset 10]
           (Reset 10 (LidarData_new 2)) (float_of_bits 0x7FC00000)).
  reflexivity.
Defined.

(** C5: after [Reset h], from any state of the accumulator, every
    point-count word of the header is zero and there are as many staging
    buffers as channels, all empty; another hint [h'] gives the same header,
    the same staged contents and the same flat buffer, the hint bounding
    only the capacity reserved. *)
Theorem Reset_clears_counts_and_staging (debug : bool) (grow : nat -> nat)
    (n : Z) (cs : list call) (d : LidarData) (h : Z) :
  run debug grow cs (LidarData_new n) = ok d ->
  (forall i, (i < Z.to_nat n)%nat -> _header (Reset h d) !! (SIZE + i)%nat = Some 0) /\
  point_counts (Reset h d) = replicate (Z.to_nat n) 0 /\
  length (_aux_points (Reset h d)) = Z.to_nat n /\
  (forall aux, aux ∈ _aux_points (Reset h d) -> elems aux = []) /\
  (forall aux, aux ∈ _aux_points (Reset h d) -> (Z.to_nat h <= capacity aux)%nat) /\
  (forall h',
     _header (Reset h' d) = _header (Reset h d) /\
     elems <$> _aux_points (Reset h' d) = elems <$> _aux_points (Reset h d) /\
     _points (Reset h' d) = _points (Reset h d)).
Proof.
  intros Hrun. apply header_shape_run in Hrun as Hh.
  pose proof (header_shape_channel_count n d Hh) as Hcc. destruct Hh as [Hh1 Hlen].
  assert (Hword : forall i, (i < Z.to_nat n)%nat ->
            _header (Reset h d) !! (SIZE + i)%nat = Some 0).
  { intros i Hi. rewrite header_Reset, Hcc.
    apply lookup_memset_zero_within; lia. }
  split; [exact Hword|]. split; [|split; [|split; [|split]]].
  - unfold point_counts.
    rewrite (header_shape_channel_count n (Reset h d)) by (by apply header_shape_Reset).
    apply list_eq. intros i.
    destruct (decide (i < Z.to_nat n)%nat) as [Hi|Hi].
    + rewrite lookup_take_lt, lookup_drop, Hword by done.
      symmetry. by apply lookup_replicate_2.
    + rewrite lookup_take_ge by lia. symmetry. apply lookup_replicate_None. lia.
  - by apply (staged_Reset n h d).
  - apply Reset_buffers_empty.
  - apply Reset_buffers_capacity.
  - intros h'. split; [reflexivity|]. split; [|reflexivity].
    simpl. rewrite <- !list_fmap_compose. by apply list_fmap_ext.
Qed.

Lemma Reset_clears_counts_and_staging_witness :
  point_counts
    (Reset 7 (MkLidarData [0; 2; 2; 2]
                [Vector [det_a; det_c] 10; Vector [det_b] 10] (Some 10)
                (Vector (floats_of [det_a; det_c; det_b]) 80)))
  = [0; 0].
Proof.
  refine (proj1 (proj2
    (Reset_clears_counts_and_staging false double 2 scenario _ 7 _))).
  reflexivity.
Defined.

(** C8: whatever calls were made on an accumulator constructed with [n]
    channels, header word 1 is still [n] and [GetChannelCount] returns [n]. *)
Theorem channel_count_immutable (debug : bool) (grow : nat -> nat)
    (n : Z) (cs : list call) (d : LidarData) :
  run debug grow cs (LidarData_new n) = ok d ->
  _header d !! ChannelCount = Some n /\ GetChannelCount d = n.
Proof.
  intros Hrun. apply header_shape_run in Hrun as Hh.
  split; [apply Hh | by apply header_shape_channel_count].
Qed.

Lemma channel_count_immutable_witness :
  exists d,
    run true double (CallSetHorizontalAngle (float_of_bits 0x40490FDB) :: scenario)
        (LidarData_new 2) = ok d /\
    GetChannelCount d = 2.
Proof.
  eexists. split; [reflexivity|].
  refine (proj2 (channel_count_immutable true double 2
            (CallSetHorizontalAngle (float_of_bits 0x40490FDB) :: scenario) _ _)).
  reflexivity.
Defined.

(** C9: [WriteDetection] appends to the stream the renderings of x, y, z
    and intensity, in this order, with one space between two of them and
    nothing before, after or besides. *)
Theorem WriteDetection_output (format_float : float -> string)
    (d : LidarDetection) (out : ostream) :
  WriteDetection format_float d out
  = (out ++ String.concat " " (map format_float (detection_floats d)))%string.
Proof.
  unfold WriteDetection, put_float, put_char, detection_floats.
  cbn [map String.concat]. by rewrite !string_append_assoc.
Qed.

(** C7: on any state of the accumulator, a second [SaveDetections] right
    after a first one that returned also returns, with the same header
    words and the same floats in the flat buffer; and the first one does
    return once a [Reset] was made. *)
Theorem SaveDetections_idempotent (debug : bool) (grow : nat -> nat)
    (n : Z) (cs : list call) (d : LidarData) :
  run debug grow cs (LidarData_new n) = ok d ->
  (existsb is_reset cs = true -> exists d1, SaveDetections grow d = ok d1) /\
  (forall d1, SaveDetections grow d = ok d1 ->
     exists d2, SaveDetections grow d1 = ok d2 /\
                _header d2 = _header d1 /\
                elems (_points d2) = elems (_points d1)).
Proof.
  intros Hrun. split.
  - intros Hreset.
    pose proof (header_shape_run debug grow n cs d Hrun) as Hh.
    pose proof (run_with_reset debug grow n cs _ d (invariant_new n) Hreset Hrun) as Hs.
    destruct (SaveDetections_ok grow n d Hh Hs) as (pts & Hsave & _). by eexists.
  - intros d1 Hsave1.
    destruct (run_invariant debug grow n cs _ d (invariant_new n) Hrun) as [Hh [Hu|Hs]].
    { rewrite (SaveDetections_unstaged grow d Hu) in Hsave1. discriminate. }
    destruct (SaveDetections_ok grow n d Hh Hs) as (pts & Hsave & Hpts).
    rewrite Hsave in Hsave1. injection Hsave1 as <-.
    match goal with |- context [SaveDetections grow ?d1] =>
      destruct (SaveDetections_ok grow n d1) as (pts' & Hsave' & Hpts') end.
    + apply (header_shape_stamp_counts n _ _ d Hh).
    + exact Hs.
    + eexists. split; [exact Hsave'|]. cbn [_header _points _aux_points] in *.
      split; [apply stamp_counts_idempotent | by rewrite Hpts, Hpts'].
Qed.

Lemma SaveDetections_idempotent_witness :
  exists d1 d2,
    run true double scenario (LidarData_new 2) = ok d1 /\
    SaveDetections double d1 = ok d2 /\
    _header d2 = _header d1 /\ elems (_points d2) = elems (_points d1).
Proof.
  eexists.
  assert (Hrun : run true double (removelast scenario) (LidarData_new 2) = ok _)
    by reflexivity.
  destruct (proj2 (SaveDetections_idempotent true double 2 (removelast scenario) _ Hrun)
              _ eq_refl) as (d2 & H2 & Hh & Hp).
  exists d2. split; [reflexivity|]. split; [exact H2|]. split; [exact Hh | exact Hp].
Defined.

(** C10: an accumulator of [n > 0] channels has no staging buffer until
    its first [Reset], so an append made before it reads past the end of
    the staging array though its channel is below [n]; once a [Reset] was
    made there are exactly [n] staging buffers and such an append returns. *)
Theorem staging_buffers_need_Reset (debug : bool) (grow : nat -> nat)
    (n : Z) (cs : list call) (d : LidarData) :
  0 < n ->
  run debug grow cs (LidarData_new n) = ok d ->
  (existsb is_reset cs = false ->
     _aux_points d = [] /\
     forall channel detection, 0 <= channel < n ->
       WritePointAsync debug grow channel detection d = raise OutOfRange) /\
  (existsb is_reset cs = true ->
     length (_aux_points d) = Z.to_nat n /\
     forall channel detection, 0 <= channel < n ->
       exists d', WritePointAsync debug grow channel detection d = ok d').
Proof.
  intros Hn Hrun. pose proof (header_shape_run debug grow n cs d Hrun) as Hh. split.
  - intros Hnr.
    assert (Hu : unstaged d).
    { eapply run_without_reset; [|exact Hnr|exact Hrun]. by split. }
    split; [apply Hu|]. intros channel detection Hc.
    apply WritePointAsync_unstaged_in_range; [exact Hu|].
    rewrite (header_shape_channel_count n d Hh). lia.
  - intros Hr.
    pose proof (run_with_reset debug grow n cs _ d (invariant_new n) Hr Hrun) as Hs.
    split; [apply Hs|]. intros channel detection Hc.
    destruct (WritePointAsync_ok debug grow n channel detection d Hh Hs Hc)
      as (aux & _ & Hw).
    by eexists.
Qed.

Lemma staging_buffers_need_Reset_witness :
  WritePointAsync true double 1 det_b
    (SetHorizontalAngle (float_of_bits 0x3F800000) (LidarData_new 2))
  = raise OutOfRange.
Proof.
  assert (Hn : 0 < 2) by lia.
  refine (proj2 (proj1 (staging_buffers_need_Reset true double 2
            [CallSetHorizontalAngle (float_of_bits 0x3F800000)] _ Hn _) _) 1 det_b _).
  - reflexivity.
  - reflexivity.
  - lia.
Defined.

(** C3: a [Reset], any valid appends and a [SaveDetections] all return;
    the flat buffer then has 4 floats per append, is the sequence of the
    channels' records in ascending channel order, each channel in append
    order, and the [j]-th record of channel [i] is x, y, z, intensity at
    float offset 4 * (appends to the channels below [i]) + 4 * [j]. *)
Theorem SaveDetections_flat_buffer (debug : bool) (grow : nat -> nat)
    (n : Z) (cs : list call) (d : LidarData) (h : Z) (ws : writes) :
  run debug grow cs (LidarData_new n) = ok d ->
  valid_writes n ws ->
  exists d',
    run debug grow (CallReset h :: write_calls ws ++ [CallSaveDetections]) d = ok d' /\
    length (elems (_points d')) = (4 * length ws)%nat /\
    elems (_points d') = sweep_floats n ws /\
    forall i j pt,
      (i < Z.to_nat n)%nat -> detections_of (Z.of_nat i) ws !! j = Some pt ->
      elems (_points d') !! (4 * appends_below i ws + 4 * j)%nat = Some (x (point pt)) /\
      elems (_points d') !! (4 * appends_below i ws + 4 * j + 1)%nat = Some (y (point pt)) /\
      elems (_points d') !! (4 * appends_below i ws + 4 * j + 2)%nat = Some (z (point pt)) /\
      elems (_points d') !! (4 * appends_below i ws + 4 * j + 3)%nat = Some (intensity pt).
Proof.
  intros Hrun Hws.
  pose proof (run_invariant debug grow n cs _ d (invariant_new n) Hrun) as Hinv.
  destruct (sweep_ok debug grow n h ws d Hinv Hws) as (d' & Hsweep & Hpts & _).
  exists d'. split; [exact Hsweep|]. split; [|split; [exact Hpts|]].
  - rewrite Hpts. by apply length_sweep_floats.
  - intros i j pt Hi Hj. rewrite Hpts.
    rewrite <- (Nat.add_0_r (4 * appends_below i ws + 4 * j)) at 1.
    rewrite !(lookup_sweep_floats n ws i j pt) by (done || lia).
    done.
Qed.

Lemma SaveDetections_flat_buffer_witness :
  exists d',
    run true double scenario (LidarData_new 2) = ok d' /\
    elems (_points d') = floats_of [det_a; det_c; det_b].
Proof.
  assert (Hrun : run true double [] (LidarData_new 2) = ok (LidarData_new 2))
    by reflexivity.
  assert (Hws : valid_writes 2 scenario_writes).
  { unfold valid_writes, scenario_writes. repeat constructor; simpl; lia. }
  destruct (SaveDetections_flat_buffer true double 2 [] _ 10 scenario_writes Hrun Hws)
    as (d' & Hsweep & _ & Hpts & _).
  exists d'. split; [exact Hsweep | exact Hpts].
Defined.

(** ** The point-count words [SaveDetections] writes *)

(** After a sweep every point-count word holds the size of the staging
    array, that is the number of channels, whatever was appended. *)
Lemma sweep_point_counts (debug : bool) (grow : nat -> nat)
    (n : Z) (d : LidarData) (h : Z) (ws : writes) :
  invariant n d -> valid_writes n ws ->
  exists d',
    run debug grow (CallReset h :: write_calls ws ++ [CallSaveDetections]) d = ok d' /\
    forall i, (i < Z.to_nat n)%nat ->
      _header d' !! (SIZE + i)%nat = Some (to_uint32 (Z.of_nat (Z.to_nat n))).
Proof.
  intros Hinv Hws.
  destruct (sweep_ok debug grow n h ws d Hinv Hws) as (d' & Hsweep & _ & Hhd).
  exists d'. split; [exact Hsweep|]. intros i Hi. rewrite Hhd.
  apply lookup_stamp_counts.
  - apply elem_of_seq. lia.
  - rewrite header_Reset, length_memset_zero.
    destruct Hinv as [[_ Hlen] _]. rewrite Hlen. lia.
Qed.

(** C1: in the scenario of two channels where channel 0 receives two
    detections and channel 1 one, [SaveDetections] writes 2 into both
    point-count words: header word 3 is 2 though channel 1 was appended to
    once. *)
Theorem scenario_point_counts (debug : bool) (grow : nat -> nat) :
  exists d,
    run debug grow scenario (LidarData_new 2) = ok d /\
    point_counts d = [2; 2] /\
    appends_to 0 scenario_writes = 2%nat /\
    appends_to 1 scenario_writes = 1%nat /\
    _header d !! (SIZE + 1)%nat <> Some (Z.of_nat (appends_to 1 scenario_writes)).
Proof.
  destruct debug; eexists; (split; [reflexivity|]); repeat split; done.
Qed.

(** C2: in the same scenario the flat buffer has 12 floats after
    [SaveDetections] while the point-count words of the header sum to 4,
    so its length is not 4 times their sum. *)
Theorem scenario_flat_length_and_counts (debug : bool) (grow : nat -> nat) :
  exists d,
    run debug grow scenario (LidarData_new 2) = ok d /\
    length (elems (_points d)) = 12%nat /\
    sum_words (point_counts d) = 4 /\
    Z.of_nat (length (elems (_points d))) <> 4 * sum_words (point_counts d).
Proof.
  destruct debug; eexists; (split; [reflexivity|]); repeat split; done.
Qed.

(** ** Further properties of the accumulator *)

(** *** Words and floats *)

Lemma Z_of_byte_of_Z (w : Z) : Z_of_byte (byte_of_Z w) = w mod 256.
Proof.
  unfold Z_of_byte, byte_of_Z.
  pose proof (Z.mod_pos_bound w 256 ltac:(lia)) as Hr.
  pose proof (Byte.to_of_N_option_map (Z.to_N (w mod 256))) as E.
  destruct (Byte.of_N (Z.to_N (w mod 256))) as [b|]; simpl in *.
  - destruct (N.leb_spec (Z.to_N (w mod 256)) 255) as [_|Hgt]; [|discriminate].
    injection E as ->. rewrite Z2N.id; lia.
  - destruct (N.leb_spec (Z.to_N (w mod 256)) 255) as [_|Hgt]; [discriminate|].
    lia.
Qed.

(** Every 32-bit word is the representation of a float: reading a word as
    a float and copying the float back gives the word. *)
Lemma memcpy_reinterpret (w : Z) :
  is_uint32 w -> memcpy_float_to_uint32 (reinterpret_uint32_as_float w) = w.
Proof.
  unfold is_uint32, uint32_max. intros Hw.
  unfold memcpy_float_to_uint32, reinterpret_uint32_as_float.
  cbn [byte0 byte1 byte2 byte3]. rewrite !Z_of_byte_of_Z.
  Z.to_euclidean_division_equations. lia.
Qed.

Lemma to_uint32_is_uint32 (n : Z) : is_uint32 (to_uint32 n).
Proof. unfold is_uint32, to_uint32, uint32_max. apply Z.mod_pos_bound. lia. Qed.

Lemma Forall_memset_zero (P : Z -> Prop) start count h :
  P 0 -> Forall P h -> Forall P (memset_zero start count h).
Proof.
  intros H0 Hh. revert start. induction count as [|count IH]; intros start; [done|].
  rewrite memset_zero_S. by apply Forall_insert.
Qed.

Lemma Forall_stamp_counts (P : Z -> Prop) count idxs h :
  P count -> Forall P h -> Forall P (stamp_counts count idxs h).
Proof.
  intros Hc. revert h. induction idxs as [|i idxs IH]; intros h Hh; [done|].
  rewrite stamp_counts_cons. apply IH. by apply Forall_insert.
Qed.

(** *** What a returning call does *)

Section CallFacts.
Variable debug : bool.
Variable grow : nat -> nat.

Lemma step_ok_cases n c d d' :
  invariant n d -> step debug grow c d = ok d' ->
  match c with
  | CallSetHorizontalAngle angle => d' = SetHorizontalAngle angle d
  | CallReset h => d' = Reset h d
  | CallWritePointAsync channel detection =>
      staged n d /\
      exists aux,
        _aux_points d !! Z.to_nat channel = Some aux /\
        d' = set_aux_points
               (<[Z.to_nat channel := vec_emplace_back grow aux detection]>
                  (_aux_points d)) d
  | CallSaveDetections =>
      staged n d /\
      exists pts,
        d' = MkLidarData
               (stamp_counts (to_uint32 (Z.of_nat (length (_aux_points d))))
                  (seq 0 (Z.to_nat n)) (_header d))
               (_aux_points d) (_max_channel_points d) pts /\
        elems pts = staged_floats (_aux_points d) (seq 0 (Z.to_nat n))
  end.
Proof.
  intros [Hh Hs] Hstep. destruct c as [angle|h|channel detection|]; cbn [step] in Hstep.
  - by injection Hstep as <-.
  - by injection Hstep as <-.
  - destruct Hs as [Hu|Hs].
    { destruct (WritePointAsync_unstaged debug grow channel detection d Hu) as [e He].
      rewrite He in Hstep. discriminate. }
    split; [exact Hs|]. unfold WritePointAsync in Hstep.
    destruct (debug && negb (channel <? GetChannelCount d)); [discriminate|].
    destruct (_aux_points d !! Z.to_nat channel) as [aux|]; [|discriminate].
    injection Hstep as <-. by exists aux.
  - destruct Hs as [Hu|Hs].
    { rewrite (SaveDetections_unstaged grow d Hu) in Hstep. discriminate. }
    split; [exact Hs|].
    destruct (SaveDetections_ok grow n d Hh Hs) as (pts & Hsave & Hpts).
    rewrite Hsave in Hstep. injection Hstep as <-. by exists pts.
Qed.

(** The header words stay 32-bit words. *)
Lemma step_header_words n c d d' :
  invariant n d -> Forall is_uint32 (_header d) ->
  step debug grow c d = ok d' -> Forall is_uint32 (_header d').
Proof.
  intros Hinv Hw Hstep. pose proof (step_ok_cases n c d d' Hinv Hstep) as Hc.
  destruct c as [angle|h|channel detection|].
  - subst d'. cbn [SetHorizontalAngle set_header _header].
    apply Forall_insert; [done | apply memcpy_float_is_uint32].
  - subst d'. rewrite header_Reset. apply Forall_memset_zero; [|done].
    unfold is_uint32, uint32_max. lia.
  - destruct Hc as (_ & aux & _ & ->). exact Hw.
  - destruct Hc as (_ & pts & -> & _). cbn [_header].
    apply Forall_stamp_counts; [apply to_uint32_is_uint32 | done].
Qed.

Lemma run_header_words n cs d d' :
  invariant n d -> Forall is_uint32 (_header d) ->
  run debug grow cs d = ok d' -> Forall is_uint32 (_header d').
Proof.
  revert d. induction cs as [|c cs IH]; intros d Hinv Hw Hrun; cbn [run] in Hrun.
  - by injection Hrun as <-.
  - destruct (step debug grow c d) as [e|d1] eqn:Hstep; [discriminate|].
    eapply IH; [| |exact Hrun].
    + by eapply step_invariant.
    + by eapply step_header_words.
Qed.

(** The angle word is written by [SetHorizontalAngle] only. *)
Lemma GetHorizontalAngle_SetHorizontalAngle n angle d :
  header_shape n d -> GetHorizontalAngle (SetHorizontalAngle angle d) = angle.
Proof.
  intros [_ Hlen]. unfold GetHorizontalAngle, header_at.
  cbn [SetHorizontalAngle set_header _header].
  rewrite list_lookup_insert_eq by (rewrite Hlen; unfold HorizontalAngle, SIZE; lia).
  apply reinterpret_memcpy.
Qed.

Lemma step_angle n c d d' :
  invariant n d -> step debug grow c d = ok d' ->
  GetHorizontalAngle d' = last_angle [c] (GetHorizontalAngle d).
Proof.
  intros Hinv Hstep. pose proof (step_ok_cases n c d d' Hinv Hstep) as Hc.
  destruct c as [angle|h|channel detection|]; cbn [last_angle].
  - subst d'. apply (GetHorizontalAngle_SetHorizontalAngle n), Hinv.
  - subst d'. unfold GetHorizontalAngle, header_at. rewrite header_Reset.
    rewrite lookup_memset_zero_below; [done | unfold HorizontalAngle, SIZE; lia].
  - by destruct Hc as (_ & aux & _ & ->).
  - destruct Hc as (_ & pts & -> & _). unfold GetHorizontalAngle, header_at.
    cbn [_header]. rewrite lookup_stamp_counts_other; [done|].
    intros i _. unfold HorizontalAngle, SIZE. lia.
Qed.

Lemma run_angle n cs d d' :
  invariant n d -> run debug grow cs d = ok d' ->
  GetHorizontalAngle d' = last_angle cs (GetHorizontalAngle d).
Proof.
  revert d. induction cs as [|c cs IH]; intros d Hinv Hrun; cbn [run] in Hrun.
  - by injection Hrun as <-.
  - destruct (step debug grow c d) as [e|d1] eqn:Hstep; [discriminate|].
    rewrite (IH d1); [|by eapply step_invariant|exact Hrun].
    rewrite (step_angle n c d d1 Hinv Hstep). by destruct c.
Qed.
End CallFacts.

(** *** The staged appends *)

Lemma detections_of_app channel ws1 ws2 :
  detections_of channel (ws1 ++ ws2)
  = detections_of channel ws1 ++ detections_of channel ws2.
Proof.
  induction ws1 as [|w ws1 IH]; [done|]. cbn [app detections_of].
  destruct (fst w =? channel); by rewrite IH.
Qed.

Lemma staged_writes_cons c cs acc :
  staged_writes (c :: cs) acc = staged_writes cs (staged_writes [c] acc).
Proof. by destruct c. Qed.

Lemma tracks_Reset n h d : header_shape n d -> tracks n [] (Reset h d).
Proof.
  intros Hh. pose proof (staged_Reset n h d Hh) as Hs. split; [exact Hs|].
  intros i Hi.
  destruct (lookup_lt_is_Some_2 (_aux_points (Reset h d)) i) as [v Hv];
    [rewrite (proj1 Hs); lia|].
  rewrite Hv. cbn [fmap option_fmap option_map detections_of].
  f_equal. apply (Reset_buffers_empty h d). by eapply list_elem_of_lookup_2.
Qed.

Lemma staged_floats_tracks n acc d :
  tracks n acc d ->
  staged_floats (_aux_points d) (seq 0 (Z.to_nat n)) = sweep_floats n acc.
Proof.
  intros [_ Hbuf]. unfold staged_floats, sweep_floats.
  apply flat_map_agree. intros i Hi. apply elem_of_seq in Hi.
  by rewrite Hbuf by lia.
Qed.

Lemma length_staged_floats aux idxs :
  (length (staged_floats aux idxs) mod 4 = 0)%nat.
Proof.
  unfold staged_floats. induction idxs as [|i idxs IH]; [done|].
  cbn [flat_map]. rewrite length_app, length_floats_of.
  rewrite Nat.add_comm, Nat.mul_comm, Nat.Div0.mod_add. exact IH.
Qed.

Section HistoryFacts.
Variable debug : bool.
Variable grow : nat -> nat.

Lemma step_tracks n acc c d d' :
  header_shape n d -> tracks n acc d -> call_typed c ->
  step debug grow c d = ok d' -> tracks n (staged_writes [c] acc) d'.
Proof.
  intros Hh Ht Hty Hstep.
  assert (Hinv : invariant n d) by (split; [done | right; apply Ht]).
  pose proof (step_ok_cases debug grow n c d d' Hinv Hstep) as Hc.
  destruct c as [angle|h|channel detection|]; cbn [staged_writes].
  - subst d'. exact Ht.
  - subst d'. by apply tracks_Reset.
  - destruct Hc as (Hs & aux & Haux & ->). destruct Ht as [_ Hbuf].
    split.
    { split; [|apply Hs]. cbn [set_aux_points _aux_points].
      rewrite length_insert. apply Hs. }
    intros i Hi. cbn [set_aux_points _aux_points].
    rewrite detections_of_app. cbn [detections_of fst snd].
    destruct Hty as [Hc0 _].
    destruct (decide (i = Z.to_nat channel)) as [->|Hne].
    + rewrite list_lookup_insert_eq by (by eapply lookup_lt_Some).
      specialize (Hbuf _ Hi). rewrite Haux in Hbuf. injection Hbuf as Hbuf.
      cbn [fmap option_fmap option_map vec_emplace_back elems].
      rewrite Hbuf, Z2Nat.id, Z.eqb_refl by lia. done.
    + rewrite list_lookup_insert_ne by done. rewrite (Hbuf _ Hi).
      destruct (Z.eqb_spec channel (Z.of_nat i)); [lia|].
      by rewrite app_nil_r.
  - destruct Hc as (_ & pts & -> & _). exact Ht.
Qed.

Lemma run_tracks n acc cs d d' :
  header_shape n d -> tracks n acc d -> Forall call_typed cs ->
  run debug grow cs d = ok d' -> tracks n (staged_writes cs acc) d'.
Proof.
  revert acc d. induction cs as [|c cs IH]; intros acc d Hh Ht Hty Hrun;
    cbn [run] in Hrun.
  - by injection Hrun as <-.
  - destruct (step debug grow c d) as [e|d1] eqn:Hstep; [discriminate|].
    apply Forall_cons_1 in Hty as [Hc Hty]. rewrite staged_writes_cons.
    eapply IH; [| |exact Hty|exact Hrun].
    + eapply step_header_shape; [|exact Hstep]. split; [done | right; apply Ht].
    + by eapply step_tracks.
Qed.

Lemma run_tracks_from_new n acc cs d d' :
  header_shape n d -> unstaged d -> Forall call_typed cs ->
  existsb is_reset cs = true ->
  run debug grow cs d = ok d' -> tracks n (staged_writes cs acc) d'.
Proof.
  revert d. induction cs as [|c cs IH]; intros d Hh Hu Hty Hr Hrun; [done|].
  cbn [run] in Hrun.
  destruct (step debug grow c d) as [e|d1] eqn:Hstep; [discriminate|].
  apply Forall_cons_1 in Hty as [Hc Hty].
  pose proof (step_unstaged debug grow c d d1 Hu Hstep) as Hd1.
  assert (Hh1 : header_shape n d1).
  { eapply step_header_shape; [|exact Hstep]. split; [done | by left]. }
  destruct c as [angle|h| |]; try done.
  - apply (IH d1); done.
  - cbn [step] in Hstep. injection Hstep as <-. cbn [staged_writes].
    eapply run_tracks; [exact Hh1 | by apply tracks_Reset | exact Hty | exact Hrun].
Qed.

(** The flat buffer holds whole records. *)
Lemma run_points_records n cs d d' :
  invariant n d -> (length (elems (_points d)) mod 4 = 0)%nat ->
  run debug grow cs d = ok d' -> (length (elems (_points d')) mod 4 = 0)%nat.
Proof.
  revert d. induction cs as [|c cs IH]; intros d Hinv Hp Hrun; cbn [run] in Hrun.
  - by injection Hrun as <-.
  - destruct (step debug grow c d) as [e|d1] eqn:Hstep; [discriminate|].
    eapply IH; [by eapply step_invariant| |exact Hrun].
    pose proof (step_ok_cases debug grow n c d d1 Hinv Hstep) as Hc.
    destruct c as [angle|h|channel detection|].
    + by subst d1.
    + by subst d1.
    + by destruct Hc as (_ & aux & _ & ->).
    + destruct Hc as (_ & pts & -> & Hpts). cbn [_points].
      rewrite Hpts. apply length_staged_floats.
Qed.
End HistoryFacts.

(** *** The flat buffer, the capacity and repeated resets *)

Lemma sweep_floats_nil n : sweep_floats n [] = [].
Proof.
  unfold sweep_floats. induction (seq 0 (Z.to_nat n)) as [|i l IH]; [done|].
  cbn [flat_map detections_of floats_of]. exact IH.
Qed.

Lemma saved_writes_cons c cs acc saved :
  saved_writes (c :: cs) acc saved
  = saved_writes cs (staged_writes [c] acc) (saved_writes [c] acc saved).
Proof. by destruct c. Qed.

Lemma lookup_memset_zero_above start count h i :
  (start + count <= i)%nat -> memset_zero start count h !! i = h !! i.
Proof.
  revert start. induction count as [|count IH]; intros start Hi; [done|].
  rewrite memset_zero_S, list_lookup_insert_ne by lia. apply IH. lia.
Qed.

Lemma memset_zero_idempotent start count h :
  memset_zero start count (memset_zero start count h) = memset_zero start count h.
Proof.
  apply list_eq. intros i.
  destruct (decide (i < start)%nat) as [Hlt|Hge].
  { by rewrite !lookup_memset_zero_below. }
  destruct (decide (start + count <= i)%nat) as [Habove|Hin].
  { by rewrite !lookup_memset_zero_above. }
  destruct (decide (i < length h)%nat) as [Hlen|Hlen].
  - rewrite !lookup_memset_zero_within; rewrite ?length_memset_zero; done || lia.
  - rewrite !lookup_ge_None_2; rewrite ?length_memset_zero; done || lia.
Qed.

Lemma LidarData_eq d1 d2 :
  _header d1 = _header d2 -> _aux_points d1 = _aux_points d2 ->
  _max_channel_points d1 = _max_channel_points d2 -> _points d1 = _points d2 ->
  d1 = d2.
Proof. destruct d1, d2. simpl. congruence. Qed.

Lemma aux_points_Reset h d :
  _aux_points (Reset h d)
  = (fun aux => vec_reserve (Z.to_nat h) (vec_clear aux))
      <$> resize (Z.to_nat (GetChannelCount d)) vec_empty (_aux_points d).
Proof. reflexivity. Qed.

Section BufferFacts.
Variable debug : bool.
Variable grow : nat -> nat.

Lemma run_flat_history n acc saved cs d d' :
  header_shape n d -> tracks n acc d ->
  elems (_points d) = sweep_floats n saved -> Forall call_typed cs ->
  run debug grow cs d = ok d' ->
  elems (_points d') = sweep_floats n (saved_writes cs acc saved).
Proof.
  revert acc saved d.
  induction cs as [|c cs IH]; intros acc saved d Hh Ht Hp Hty Hrun; cbn [run] in Hrun.
  - by injection Hrun as <-.
  - destruct (step debug grow c d) as [e|d1] eqn:Hstep; [discriminate|].
    apply Forall_cons_1 in Hty as [Hc Hty]. rewrite saved_writes_cons.
    assert (Hinv : invariant n d) by (split; [done | right; apply Ht]).
    eapply IH; [| | |exact Hty|exact Hrun].
    + by eapply step_header_shape.
    + by eapply step_tracks.
    + pose proof (step_ok_cases debug grow n c d d1 Hinv Hstep) as Hcase.
      destruct c as [angle|h|channel detection|]; cbn [saved_writes].
      * by subst d1.
      * by subst d1.
      * by destruct Hcase as (_ & aux & _ & ->).
      * destruct Hcase as (_ & pts & -> & Hpts). cbn [_points].
        rewrite Hpts. by apply staged_floats_tracks.
Qed.

Lemma run_flat_history_from_new n acc saved cs d d' :
  header_shape n d -> unstaged d ->
  elems (_points d) = sweep_floats n saved -> Forall call_typed cs ->
  run debug grow cs d = ok d' ->
  elems (_points d') = sweep_floats n (saved_writes cs acc saved).
Proof.
  revert d. induction cs as [|c cs IH]; intros d Hh Hu Hp Hty Hrun; cbn [run] in Hrun.
  - by injection Hrun as <-.
  - destruct (step debug grow c d) as [e|d1] eqn:Hstep; [discriminate|].
    apply Forall_cons_1 in Hty as [Hc Hty].
    pose proof (step_unstaged debug grow c d d1 Hu Hstep) as Hd1.
    assert (Hh1 : header_shape n d1).
    { eapply step_header_shape; [|exact Hstep]. split; [done | by left]. }
    destruct c as [angle|h| |]; try done; cbn [step] in Hstep; injection Hstep as <-.
    + cbn [saved_writes]. by apply (IH (SetHorizontalAngle angle d)).
    + cbn [saved_writes].
      eapply run_flat_history; [exact Hh1 | by apply tracks_Reset | exact Hp
                               | exact Hty | exact Hrun].
Qed.

(** While a staging buffer has room for the appends to come, none of them
    changes its capacity. *)
Lemma run_writes_capacity ws d d' i v :
  run debug grow (write_calls ws) d = ok d' ->
  Forall (fun w => 0 <= fst w) ws ->
  _aux_points d !! i = Some v ->
  (length (elems v) + appends_to (Z.of_nat i) ws <= capacity v)%nat ->
  exists v', _aux_points d' !! i = Some v' /\ capacity v' = capacity v.
Proof.
  revert d v. induction ws as [|w ws IH]; intros d v Hrun Hws Hv Hroom.
  - cbn in Hrun. injection Hrun as <-. by exists v.
  - apply Forall_cons_1 in Hws as [Hw Hws].
    unfold write_calls in Hrun. cbn [fmap list_fmap run step] in Hrun.
    fold (write_calls ws) in Hrun. unfold WritePointAsync in Hrun.
    destruct (debug && negb (fst w <? GetChannelCount d)); [discriminate|].
    destruct (_aux_points d !! Z.to_nat (fst w)) as [aux0|] eqn:Haux0; [|discriminate].
    cbn [bind ok] in Hrun. rewrite appends_to_cons in Hroom.
    destruct (decide (i = Z.to_nat (fst w))) as [->|Hne].
    + rewrite Haux0 in Hv. injection Hv as ->.
      case_decide as Hch; [|lia].
      destruct (IH _ (vec_emplace_back grow v (snd w)) Hrun Hws) as (v' & Hv' & Hcap).
      * cbn [set_aux_points _aux_points].
        apply list_lookup_insert_eq. by eapply lookup_lt_Some.
      * cbn [vec_emplace_back elems capacity]. unfold vec_size. rewrite length_app.
        destruct (Nat.ltb_spec (length (elems v)) (capacity v)); simpl; lia.
      * exists v'. split; [exact Hv'|]. rewrite Hcap.
        cbn [vec_emplace_back capacity]. unfold vec_size.
        destruct (Nat.ltb_spec (length (elems v)) (capacity v)); [done | lia].
    + case_decide as Hch; [lia|].
      apply (IH _ v Hrun Hws); [|lia].
      cbn [set_aux_points _aux_points]. by rewrite list_lookup_insert_ne.
Qed.
End BufferFacts.

(** ** Properties beyond the sweep *)

(** X1: an append whose channel is not below the channel count never
    returns: a debug build stops at the assertion, a release build reads
    past the end of the staging array. *)
Theorem WritePointAsync_channel_out_of_range (debug : bool) (grow : nat -> nat)
    (n : Z) (cs : list call) (d : LidarData) (channel : Z) (detection : LidarDetection) :
  run debug grow cs (LidarData_new n) = ok d ->
  0 <= channel -> n <= channel ->
  WritePointAsync debug grow channel detection d
  = raise (if debug then AssertionFailed else OutOfRange).
Proof.
  intros Hrun H0 Hge.
  destruct (run_invariant debug grow n cs _ d (invariant_new n) Hrun) as [Hh Hs].
  unfold WritePointAsync. rewrite (header_shape_channel_count n d Hh).
  destruct (Z.ltb_spec channel n); [lia|]. rewrite andb_true_r.
  destruct debug; [done|].
  rewrite lookup_ge_None_2; [done|].
  destruct Hs as [[-> _]|[-> _]]; simpl; lia.
Qed.

Lemma WritePointAsync_channel_out_of_range_witness :
  WritePointAsync true double 2 det_a (Reset 10 (LidarData_new 2)) = raise AssertionFailed /\
  WritePointAsync false double 2 det_a (Reset 10 (LidarData_new 2)) = raise OutOfRange.
Proof.
  split.
  - apply (WritePointAsync_channel_out_of_range true double 2 [CallReset 10]);
      [reflexivity | lia | lia].
  - apply (WritePointAsync_channel_out_of_range false double 2 [CallReset 10]);
      [reflexivity | lia | lia].
Defined.

(** X2: once a [Reset] was made, an append to a channel below the channel
    count returns; it puts the detection at the end of that channel's
    staging buffer and leaves the other staging buffers, the header, the
    flat buffer and the capacity hint as they were. *)
Theorem WritePointAsync_appends_to_its_channel (debug : bool) (grow : nat -> nat)
    (n : Z) (cs : list call) (d : LidarData) (channel : Z) (detection : LidarDetection) :
  run debug grow cs (LidarData_new n) = ok d ->
  existsb is_reset cs = true ->
  0 <= channel < n ->
  exists d' aux,
    WritePointAsync debug grow channel detection d = ok d' /\
    _aux_points d !! Z.to_nat channel = Some aux /\
    elems <$> (_aux_points d' !! Z.to_nat channel) = Some (elems aux ++ [detection]) /\
    (forall i, i <> Z.to_nat channel -> _aux_points d' !! i = _aux_points d !! i) /\
    length (_aux_points d') = length (_aux_points d) /\
    _header d' = _header d /\
    _points d' = _points d /\
    _max_channel_points d' = _max_channel_points d.
Proof.
  intros Hrun Hr Hc.
  pose proof (header_shape_run debug grow n cs d Hrun) as Hh.
  pose proof (run_with_reset debug grow n cs _ d (invariant_new n) Hr Hrun) as Hs.
  destruct (WritePointAsync_ok debug grow n channel detection d Hh Hs Hc)
    as (aux & Haux & Hw).
  eexists. exists aux. split; [exact Hw|]. split; [exact Haux|].
  cbn [set_aux_points _aux_points _header _points _max_channel_points].
  split; [|split; [|split; [|done]]].
  - by rewrite list_lookup_insert_eq by (by eapply lookup_lt_Some).
  - intros i Hi. by rewrite list_lookup_insert_ne.
  - by rewrite length_insert.
Qed.

Lemma WritePointAsync_appends_to_its_channel_witness :
  exists d',
    WritePointAsync true double 1 det_b (Reset 10 (LidarData_new 2)) = ok d' /\
    _header d' = _header (Reset 10 (LidarData_new 2)).
Proof.
  assert (Hc : 0 <= 1 < 2) by lia.
  destruct (WritePointAsync_appends_to_its_channel true double 2 [CallReset 10]
              (Reset 10 (LidarData_new 2)) 1 det_b eq_refl eq_refl Hc)
    as (d' & aux & Hw & _ & _ & _ & _ & Hh & _).
  exists d'. split; [exact Hw | exact Hh].
Defined.

(** X3: two appends to different channels give the same accumulator in
    either order. *)
Theorem WritePointAsync_channels_commute (debug : bool) (grow : nat -> nat)
    (n : Z) (cs : list call) (d : LidarData)
    (c1 c2 : Z) (p1 p2 : LidarDetection) :
  run debug grow cs (LidarData_new n) = ok d ->
  existsb is_reset cs = true ->
  0 <= c1 < n -> 0 <= c2 < n -> c1 <> c2 ->
  exists d',
    run debug grow [CallWritePointAsync c1 p1; CallWritePointAsync c2 p2] d = ok d' /\
    run debug grow [CallWritePointAsync c2 p2; CallWritePointAsync c1 p1] d = ok d'.
Proof.
  intros Hrun Hr H1 H2 Hne.
  pose proof (header_shape_run debug grow n cs d Hrun) as Hh.
  pose proof (run_with_reset debug grow n cs _ d (invariant_new n) Hr Hrun) as Hs.
  assert (Hi : Z.to_nat c1 <> Z.to_nat c2) by lia.
  destruct (WritePointAsync_ok debug grow n c1 p1 d Hh Hs H1) as (a1 & Ha1 & Hw1).
  destruct (WritePointAsync_ok debug grow n c2 p2 d Hh Hs H2) as (a2 & Ha2 & Hw2).
  assert (Hstaged : forall a, staged n (set_aux_points a d) <-> length a = Z.to_nat n).
  { intros a. unfold staged. cbn [set_aux_points _aux_points _max_channel_points].
    destruct Hs as [_ Hm]. tauto. }
  destruct (WritePointAsync_ok debug grow n c2 p2
              (set_aux_points (<[Z.to_nat c1 := vec_emplace_back grow a1 p1]> (_aux_points d)) d)
              Hh) as (a2' & Ha2' & Hw12); [|exact H2|].
  { apply Hstaged. rewrite length_insert. apply Hs. }
  destruct (WritePointAsync_ok debug grow n c1 p1
              (set_aux_points (<[Z.to_nat c2 := vec_emplace_back grow a2 p2]> (_aux_points d)) d)
              Hh) as (a1' & Ha1' & Hw21); [|exact H1|].
  { apply Hstaged. rewrite length_insert. apply Hs. }
  cbn [set_aux_points _aux_points] in Ha2', Ha1'.
  rewrite list_lookup_insert_ne in Ha2' by done.
  rewrite list_lookup_insert_ne in Ha1' by done.
  assert (a2' = a2) as -> by congruence. assert (a1' = a1) as -> by congruence.
  eexists. split.
  - cbn [run step]. rewrite Hw1. cbn [bind ok]. rewrite Hw12. reflexivity.
  - cbn [run step]. rewrite Hw2. cbn [bind ok]. rewrite Hw21. cbn [bind ok].
    cbn [set_aux_points _aux_points _header _points _max_channel_points].
    by rewrite list_insert_insert_ne.
Qed.

Lemma WritePointAsync_channels_commute_witness :
  exists d',
    run false double [CallWritePointAsync 0 det_a; CallWritePointAsync 1 det_b]
        (Reset 10 (LidarData_new 2)) = ok d' /\
    run false double [CallWritePointAsync 1 det_b; CallWritePointAsync 0 det_a]
        (Reset 10 (LidarData_new 2)) = ok d'.
Proof.
  apply (WritePointAsync_channels_commute false double 2 [CallReset 10]);
    [reflexivity | reflexivity | lia | lia | lia].
Defined.

(** X4: in every state of an accumulator of [n] channels the header has
    exactly [2 + n] words and each of them is within 32 bits. *)
Theorem header_size_and_words (debug : bool) (grow : nat -> nat)
    (n : Z) (cs : list call) (d : LidarData) :
  is_uint32 n ->
  run debug grow cs (LidarData_new n) = ok d ->
  Z.of_nat (length (_header d)) = 2 + n /\ Forall is_uint32 (_header d).
Proof.
  intros Hn Hrun. split.
  - destruct (header_shape_run debug grow n cs d Hrun) as [_ Hlen].
    rewrite Hlen. unfold SIZE. destruct Hn. lia.
  - eapply run_header_words; [apply invariant_new| |exact Hrun].
    unfold LidarData_new. cbn [_header]. apply Forall_insert; [|exact Hn].
    apply Forall_replicate. unfold is_uint32, uint32_max. lia.
Qed.

Lemma header_size_and_words_witness :
  exists d,
    run true double scenario (LidarData_new 2) = ok d /\
    Z.of_nat (length (_header d)) = 2 + 2.
Proof.
  assert (Hn : is_uint32 2) by (unfold is_uint32, uint32_max; lia).
  eexists. split; [reflexivity|].
  refine (proj1 (header_size_and_words true double 2 scenario _ Hn _)).
  reflexivity.
Defined.

(** X5: [GetHorizontalAngle] returns the angle of the last
    [SetHorizontalAngle], whatever resets, appends and saves came after it,
    and the all-zero float when the angle was never set. *)
Theorem GetHorizontalAngle_last_set (debug : bool) (grow : nat -> nat)
    (n : Z) (cs : list call) (d : LidarData) :
  run debug grow cs (LidarData_new n) = ok d ->
  GetHorizontalAngle d = last_angle cs float_zero.
Proof.
  intros Hrun.
  rewrite (run_angle debug grow n cs _ d (invariant_new n) Hrun).
  f_equal.
Qed.

Lemma GetHorizontalAngle_last_set_witness :
  exists d,
    run true double (CallSetHorizontalAngle (float_of_bits 0x40490FDB) :: scenario)
        (LidarData_new 2) = ok d /\
    GetHorizontalAngle d = float_of_bits 0x40490FDB.
Proof.
  eexists. split; [reflexivity|].
  refine (GetHorizontalAngle_last_set true double 2
            (CallSetHorizontalAngle (float_of_bits 0x40490FDB) :: scenario) _ _).
  reflexivity.
Defined.

(** X6: writing back the angle that [GetHorizontalAngle] returns leaves
    the accumulator as it is: the word read as a float and copied back is
    the same word. *)
Theorem SetHorizontalAngle_of_GetHorizontalAngle (debug : bool) (grow : nat -> nat)
    (n : Z) (cs : list call) (d : LidarData) :
  is_uint32 n ->
  run debug grow cs (LidarData_new n) = ok d ->
  SetHorizontalAngle (GetHorizontalAngle d) d = d.
Proof.
  intros Hn Hrun.
  pose proof (header_shape_run debug grow n cs d Hrun) as [_ Hlen].
  assert (Hwords : Forall is_uint32 (_header d)).
  { eapply run_header_words; [apply invariant_new| |exact Hrun].
    unfold LidarData_new. cbn [_header]. apply Forall_insert; [|exact Hn].
    apply Forall_replicate. unfold is_uint32, uint32_max. lia. }
  destruct (lookup_lt_is_Some_2 (_header d) HorizontalAngle) as [w Hw].
  { rewrite Hlen. unfold HorizontalAngle, SIZE. lia. }
  pose proof (proj1 (Forall_lookup _ _) Hwords _ _ Hw) as Hw32.
  assert (Hget : header_at HorizontalAngle d = w) by (unfold header_at; by rewrite Hw).
  unfold SetHorizontalAngle, GetHorizontalAngle. rewrite Hget.
  rewrite (memcpy_reinterpret w Hw32), (list_insert_id _ _ _ Hw).
  by destruct d.
Qed.

Lemma SetHorizontalAngle_of_GetHorizontalAngle_witness :
  SetHorizontalAngle (GetHorizontalAngle (Reset 10 (LidarData_new 2)))
    (Reset 10 (LidarData_new 2))
  = Reset 10 (LidarData_new 2).
Proof.
  assert (Hn : is_uint32 2) by (unfold is_uint32, uint32_max; lia).
  apply (SetHorizontalAngle_of_GetHorizontalAngle true double 2 [CallReset 10] _ Hn).
  reflexivity.
Defined.

(** X7: after any calls with a [Reset] among them, the staging buffer of
    each channel holds the detections appended to it since the last
    [Reset], in append order, whether or not [SaveDetections] was called in
    between; a [SaveDetections] made then returns, fills the flat buffer
    with all of them and keeps them staged. *)
Theorem staging_holds_appends_since_Reset (debug : bool) (grow : nat -> nat)
    (n : Z) (cs : list call) (d : LidarData) :
  run debug grow cs (LidarData_new n) = ok d ->
  Forall call_typed cs ->
  existsb is_reset cs = true ->
  (forall i, (i < Z.to_nat n)%nat ->
     elems <$> (_aux_points d !! i)
     = Some (detections_of (Z.of_nat i) (staged_writes cs []))) /\
  exists d',
    SaveDetections grow d = ok d' /\
    elems (_points d') = sweep_floats n (staged_writes cs []) /\
    _aux_points d' = _aux_points d.
Proof.
  intros Hrun Hty Hr.
  pose proof (header_shape_new n) as Hh0.
  assert (Hu0 : unstaged (LidarData_new n)) by done.
  pose proof (run_tracks_from_new debug grow n [] cs _ d Hh0 Hu0 Hty Hr Hrun) as Ht.
  split; [apply Ht|].
  pose proof (header_shape_run debug grow n cs d Hrun) as Hh.
  destruct (SaveDetections_ok grow n d Hh (proj1 Ht)) as (pts & Hsave & Hpts).
  eexists. split; [exact Hsave|]. cbn [_points _aux_points].
  split; [|done]. rewrite Hpts. by apply staged_floats_tracks.
Qed.

Lemma staging_holds_appends_since_Reset_witness :
  exists d d',
    run false double
      [CallReset 1; CallWritePointAsync 1 det_b; CallSaveDetections;
       CallWritePointAsync 0 det_a] (LidarData_new 2) = ok d /\
    SaveDetections double d = ok d' /\
    elems (_points d') = floats_of [det_a; det_b].
Proof.
  assert (Hty : Forall call_typed
            [CallReset 1; CallWritePointAsync 1 det_b; CallSaveDetections;
             CallWritePointAsync 0 det_a]).
  { repeat constructor; unfold uint32_max; simpl; lia. }
  eexists.
  assert (Hrun : run false double
            [CallReset 1; CallWritePointAsync 1 det_b; CallSaveDetections;
             CallWritePointAsync 0 det_a] (LidarData_new 2) = ok _) by reflexivity.
  destruct (staging_holds_appends_since_Reset false double 2 _ _ Hrun Hty eq_refl)
    as (_ & d' & Hsave & Hpts & _).
  exists d'. split; [exact Hrun|]. split; [exact Hsave | exact Hpts].
Defined.



(** X9: in every state the flat buffer holds what the last
    [SaveDetections] found staged, channel by channel; appends, a new
    angle and even a [Reset] made since then have not changed it, and it
    is empty while no [SaveDetections] was made. *)
Theorem flat_buffer_is_last_save (debug : bool) (grow : nat -> nat)
    (n : Z) (cs : list call) (d : LidarData) :
  run debug grow cs (LidarData_new n) = ok d ->
  Forall call_typed cs ->
  elems (_points d) = sweep_floats n (saved_writes cs [] []).
Proof.
  intros Hrun Hty.
  eapply run_flat_history_from_new; [apply header_shape_new | done | | exact Hty | exact Hrun].
  by rewrite sweep_floats_nil.
Qed.

Lemma flat_buffer_is_last_save_witness :
  exists d,
    run true double (scenario ++ [CallReset 5; CallWritePointAsync 1 det_a])
        (LidarData_new 2) = ok d /\
    elems (_points d) = floats_of [det_a; det_c; det_b].
Proof.
  assert (Hty : Forall call_typed
            (scenario ++ [CallReset 5; CallWritePointAsync 1 det_a])).
  { repeat constructor; unfold uint32_max; simpl; lia. }
  eexists.
  assert (Hrun : run true double
            (scenario ++ [CallReset 5; CallWritePointAsync 1 det_a])
            (LidarData_new 2) = ok _) by reflexivity.
  split; [exact Hrun|].
  exact (flat_buffer_is_last_save true double 2 _ _ Hrun Hty).
Defined.

(** X10: the floats of the flat buffer always come in whole records: its
    length is a multiple of four in every state. *)
Theorem flat_buffer_whole_records (debug : bool) (grow : nat -> nat)
    (n : Z) (cs : list call) (d : LidarData) :
  run debug grow cs (LidarData_new n) = ok d ->
  (length (elems (_points d)) mod Z.to_nat SizeLidarDetection = 0)%nat.
Proof.
  intros Hrun.
  by eapply (run_points_records debug grow n cs (LidarData_new n));
    [apply invariant_new | | exact Hrun].
Qed.

Lemma flat_buffer_whole_records_witness :
  exists d,
    run true double scenario (LidarData_new 2) = ok d /\
    (length (elems (_points d)) mod 4 = 0)%nat.
Proof.
  eexists.
  assert (Hrun : run true double scenario (LidarData_new 2) = ok _) by reflexivity.
  split; [exact Hrun|].
  exact (flat_buffer_whole_records true double 2 scenario _ Hrun).
Defined.

(** X11: a second [Reset] with the same hint changes nothing. *)
Theorem Reset_idempotent (debug : bool) (grow : nat -> nat)
    (n : Z) (cs : list call) (d : LidarData) (h : Z) :
  run debug grow cs (LidarData_new n) = ok d ->
  Reset h (Reset h d) = Reset h d.
Proof.
  intros Hrun. pose proof (header_shape_run debug grow n cs d Hrun) as Hh.
  pose proof (header_shape_channel_count n _ (header_shape_Reset n h d Hh)) as Hcc1.
  pose proof (header_shape_channel_count n d Hh) as Hcc.
  apply LidarData_eq; [| |reflexivity|reflexivity].
  - rewrite !header_Reset, Hcc1, Hcc. apply memset_zero_idempotent.
  - rewrite (aux_points_Reset h (Reset h d)), Hcc1, aux_points_Reset, Hcc.
    rewrite resize_all_alt by (by rewrite length_fmap, length_resize).
    rewrite <- list_fmap_compose. apply list_fmap_ext. intros i v _.
    unfold vec_reserve, vec_clear. simpl. f_equal. lia.
Qed.

Lemma Reset_idempotent_witness :
  Reset 10 (Reset 10 (LidarData_new 2)) = Reset 10 (LidarData_new 2).
Proof.
  apply (Reset_idempotent true double 2 [] (LidarData_new 2) 10). reflexivity.
Defined.

(** X12: after [Reset h], appends to a channel do not change the capacity
    of its staging buffer as long as there are at most [h] of them: the
    room reserved by [Reset] is used before the buffer grows. *)
Theorem Reset_reserves_room (debug : bool) (grow : nat -> nat)
    (n : Z) (cs : list call) (d : LidarData) (h : Z) (ws : writes) :
  run debug grow cs (LidarData_new n) = ok d ->
  valid_writes n ws ->
  exists d',
    run debug grow (write_calls ws) (Reset h d) = ok d' /\
    forall i, (i < Z.to_nat n)%nat ->
      (appends_to (Z.of_nat i) ws <= Z.to_nat h)%nat ->
      exists v0 v',
        _aux_points (Reset h d) !! i = Some v0 /\
        _aux_points d' !! i = Some v' /\
        capacity v' = capacity v0 /\
        (Z.to_nat h <= capacity v0)%nat.
Proof.
  intros Hrun Hws.
  pose proof (header_shape_run debug grow n cs d Hrun) as Hh.
  pose proof (header_shape_Reset n h d Hh) as Hh0.
  pose proof (staged_Reset n h d Hh) as Hs0.
  destruct (run_writes debug grow n ws (Reset h d) Hh0 Hs0 Hws) as (d' & Hrun' & _).
  exists d'. split; [exact Hrun'|]. intros i Hi Hfew.
  destruct (lookup_lt_is_Some_2 (_aux_points (Reset h d)) i) as [v0 Hv0];
    [rewrite (proj1 Hs0); lia|].
  pose proof (list_elem_of_lookup_2 _ _ _ Hv0) as Hin.
  pose proof (Reset_buffers_empty h d v0 Hin) as Hempty.
  pose proof (Reset_buffers_capacity h d v0 Hin) as Hcap.
  destruct (run_writes_capacity debug grow ws (Reset h d) d' i v0 Hrun')
    as (v' & Hv' & Hsame).
  - eapply List.Forall_impl; [|exact Hws]. simpl. intros w Hw. lia.
  - exact Hv0.
  - rewrite Hempty. simpl. lia.
  - by exists v0, v'.
Qed.

Lemma Reset_reserves_room_witness :
  exists d',
    run true double (write_calls scenario_writes) (Reset 2 (LidarData_new 2)) = ok d' /\
    capacity <$> _aux_points d' = [2%nat; 2%nat].
Proof.
  assert (Hws : valid_writes 2 scenario_writes).
  { unfold valid_writes, scenario_writes. repeat constructor; simpl; lia. }
  destruct (Reset_reserves_room true double 2 [] (LidarData_new 2) 2 scenario_writes
              eq_refl Hws) as (d' & Hrun' & _).
  exists d'. split; [exact Hrun'|].
  cbv in Hrun'. injection Hrun' as <-. reflexivity.
Defined.
